(** * linkedin-crawler: the record extractor and the section expander

    A shallow embedding of [src/crawler/crawler.py]: the [Parser] class
    (parsing of experience, education, certification and about markup),
    the fetch methods of [Crawler] that drive it over a parsed section,
    and [Crawler._expand_items], the click-and-rescan loop that runs
    against the live page.

    Python text is a list of Unicode code points, a BeautifulSoup tag is
    a tree, an exception is a value of [exn] carried by [result], and the
    browser is a set of section variables with an explicit state. *)

From Stdlib Require Import String Ascii NArith Arith Bool Lia List.
Import ListNotations.

Open Scope string_scope.
Open Scope list_scope.

(** ** Exceptions and results *)

Inductive exn :=
| IndexError
| AttributeError
| Forbidden
| StaleElementReferenceException
| RecursionError
| WebDriverException
| UnboundLocalError.

Inductive result (A : Type) :=
| Ok (a : A)
| Raise (e : exn).

Arguments Ok {A} a.
Arguments Raise {A} e.

Definition bind {A B : Type} (m : result A) (k : A -> result B) : result B :=
  match m with
  | Ok a => k a
  | Raise e => Raise e
  end.

Notation "x <- m ;; k" := (bind m (fun x => k))
  (at level 61, m at next level, right associativity).

(** [l[i]] for [i >= 0], and [l[-1]]. *)
Definition getitem {A : Type} (l : list A) (i : nat) : result A :=
  match nth_error l i with
  | Some x => Ok x
  | None => Raise IndexError
  end.

Definition getlast {A : Type} (l : list A) : result A :=
  match rev l with
  | x :: _ => Ok x
  | [] => Raise IndexError
  end.

(** Truth value of a Python list. *)
Definition truthy {A : Type} (l : list A) : bool :=
  match l with
  | [] => false
  | _ :: _ => true
  end.

(** [[f(x) for x in l]], stopping at the first exception. *)
Fixpoint mapM {A B : Type} (f : A -> result B) (l : list A) : result (list B) :=
  match l with
  | [] => Ok []
  | x :: xs => y <- f x ;; ys <- mapM f xs ;; Ok (y :: ys)
  end.

(** ** Python strings *)

Module PyStr.

(** A [str] is its sequence of code points. *)
Definition pystr := list N.

(** An ASCII literal as a [str]. *)
Definition str (s : string) : pystr :=
  map N_of_ascii (list_ascii_of_string s).

(** U+2013 EN DASH, the separator of a date range; U+00B7 MIDDLE DOT. *)
Definition en_dash : N := 8211.
Definition middle_dot : N := 183.

(** The characters [str.split()] and [str.strip()] treat as whitespace. *)
Definition isspace (c : N) : bool :=
  (((9 <=? c) && (c <=? 13)) || ((28 <=? c) && (c <=? 32))
  || (c =? 133) || (c =? 160) || (c =? 5760)
  || ((8192 <=? c) && (c <=? 8202))
  || (c =? 8232) || (c =? 8233) || (c =? 8239) || (c =? 8287)
  || (c =? 12288))%N.

Definition space : N := 32.
Definition newline : N := 10.

Definition push_word (w : pystr) (ws : list pystr) : list pystr :=
  match w with
  | [] => ws
  | _ :: _ => w :: ws
  end.

(** The word that starts at the head of [s] (empty when [s] starts with
    whitespace) and the complete words after it. *)
Fixpoint words (s : pystr) : pystr * list pystr :=
  match s with
  | [] => ([], [])
  | c :: r =>
      let (w, ws) := words r in
      if isspace c then ([], push_word w ws) else (c :: w, ws)
  end.

(** [s.split()]: the maximal runs of non-whitespace. *)
Definition split (s : pystr) : list pystr :=
  let (w, ws) := words s in push_word w ws.

(** The piece before the first [sep] and the pieces after it. *)
Fixpoint pieces (sep : N) (s : pystr) : pystr * list pystr :=
  match s with
  | [] => ([], [])
  | c :: r =>
      let (p, ps) := pieces sep r in
      if (c =? sep)%N then ([], p :: ps) else (c :: p, ps)
  end.

(** [s.split(sep)] for a one-character separator: empty pieces are kept. *)
Definition split_on (sep : N) (s : pystr) : list pystr :=
  let (p, ps) := pieces sep s in p :: ps.

Fixpoint lstrip (s : pystr) : pystr :=
  match s with
  | [] => []
  | c :: r => if isspace c then lstrip r else s
  end.

Definition rstrip (s : pystr) : pystr := rev (lstrip (rev s)).

(** [s.strip()] *)
Definition strip (s : pystr) : pystr := rstrip (lstrip s).

Fixpoint starts_with (p s : pystr) : bool :=
  match p, s with
  | [], _ => true
  | _ :: _, [] => false
  | a :: p', b :: s' => (a =? b)%N && starts_with p' s'
  end.

(** [sub in s] *)
Fixpoint contains (sub s : pystr) : bool :=
  starts_with sub s
  || match s with
     | [] => false
     | _ :: r => contains sub r
     end.

(** [s.replace(old, new)] for a non-empty [old]: occurrences are replaced
    from the left and do not overlap; [skip] counts the characters of a
    replaced occurrence still to be dropped. *)
Fixpoint replace_from (old new : pystr) (skip : nat) (s : pystr) : pystr :=
  match s with
  | [] => []
  | c :: r =>
      match skip with
      | S k => replace_from old new k r
      | O =>
          if starts_with old s
          then new ++ replace_from old new (List.length old - 1) r
          else c :: replace_from old new 0 r
      end
  end.

Definition replace (old new s : pystr) : pystr := replace_from old new 0 s.

(** [sep.join(l)] *)
Fixpoint join (sep : pystr) (l : list pystr) : pystr :=
  match l with
  | [] => []
  | w :: ws =>
      match ws with
      | [] => w
      | _ :: _ => w ++ sep ++ join sep ws
      end
  end.

End PyStr.

Import PyStr.

(** ** BeautifulSoup trees *)

Module Soup.

(** A [Tag]: its name, its [class] attribute and its [contents], each a
    [NavigableString] (left) or a [Tag] (right). *)
#[local] Unset Elimination Schemes.
Inductive tag :=
| Tag (name : string) (classes : list string) (contents : list (pystr + tag)).
#[local] Set Elimination Schemes.

Definition name (t : tag) : string := let (n, _, _) := t in n.
Definition classes (t : tag) : list string := let (_, c, _) := t in c.
Definition contents (t : tag) : list (pystr + tag) := let (_, _, c) := t in c.

(** [len(tag)] is the number of its children, strings included. *)
Definition len (t : tag) : nat := List.length (contents t).

Definition inr_eq_inv (A B : Type) (x y : B) (H : @inr A B x = inr y) : x = y :=
  f_equal (fun s => match s with inl _ => x | inr b => b end) H.

Definition inl_inr_absurd (A B : Type) (x : A) (y : B) (Q : Prop)
    (H : @inl A B x = inr y) : Q :=
  match H in _ = s return match s with inl _ => True | inr _ => Q end with
  | eq_refl => I
  end.

(** Induction over a tag with the hypothesis for every child tag. *)
Section TagInduction.
Variable P : tag -> Prop.
Hypothesis step :
  forall n cl cs, (forall t, In (inr t) cs -> P t) -> P (Tag n cl cs).

Fixpoint tag_induction (t : tag) : P t :=
  match t with
  | Tag n cl cs =>
      step n cl cs
        ((fix children (l : list (pystr + tag)) :
            forall t', In (inr t') l -> P t' :=
            match l return forall t', In (inr t') l -> P t' with
            | [] => fun _ H => False_ind _ H
            | c :: r => fun t' H =>
                match H with
                | or_introl e =>
                    match c return c = inr t' -> P t' with
                    | inl s => fun e' => inl_inr_absurd _ _ s t' _ e'
                    | inr u => fun e' =>
                        eq_ind u P (tag_induction u) t' (inr_eq_inv _ _ u t' e')
                    end e
                | or_intror i => children r t' i
                end
            end) cs)
  end.
End TagInduction.

(** The tags below [t], in document order. *)
Fixpoint descendants (t : tag) : list tag :=
  match t with
  | Tag _ _ cs =>
      flat_map (fun c => match c with
                         | inl _ => []
                         | inr t' => t' :: descendants t'
                         end) cs
  end.

(** [tag.get_text()]: the strings below [t], concatenated. *)
Fixpoint get_text (t : tag) : pystr :=
  match t with
  | Tag _ _ cs =>
      flat_map (fun c => match c with
                         | inl s => s
                         | inr t' => get_text t'
                         end) cs
  end.

(** The selectors the crawler uses: [.klass] and a bare tag name. *)
Inductive selector :=
| ByClass (c : string)
| ByName (n : string).

Definition css (s : string) : selector :=
  match s with
  | String "." c => ByClass c
  | _ => ByName s
  end.

Definition matches (sel : selector) (t : tag) : bool :=
  match sel with
  | ByClass c => existsb (String.eqb c) (classes t)
  | ByName n => String.eqb n (name t)
  end.

(** [tag.select(s)]: the descendants of [tag] that match, in document
    order; [tag] itself is never among them. *)
Definition select (s : string) (t : tag) : list tag :=
  filter (matches (css s)) (descendants t).

(** What the lxml tree builder hands back for a fragment of body markup
    that opens with an element: the document object, one [html] element,
    one [body] holding the fragment.  For empty markup it builds no
    element, and the document object is left without children. *)
Definition lxml_body (fragment : list (pystr + tag)) : tag :=
  Tag "body" [] fragment.

Definition lxml_html (fragment : list (pystr + tag)) : tag :=
  Tag "html" [] [inr (lxml_body fragment)].

Definition lxml_document (fragment : list (pystr + tag)) : tag :=
  match fragment with
  | [] => Tag "[document]" [] []
  | _ :: _ => Tag "[document]" [] [inr (lxml_html fragment)]
  end.

End Soup.

Import Soup.

(** ** The records the parsers build *)

Module Experience.
Record data := Build {
  company : pystr;
  start_date : pystr;
  end_date : pystr;
  position : pystr;
  location : pystr;
  description : pystr
}.
End Experience.

Module Education.
Record data := Build {
  school : pystr;
  field_of_study : pystr;
  degree : pystr;
  start_date : pystr;
  end_date : pystr
}.
End Education.

Module Certification.
Record data := Build {
  company : pystr;
  title : pystr;
  issue_date : pystr;
  due_date : pystr;
  credential : pystr
}.
End Certification.

(** ** class Parser *)

Module Parser.

(** [bool(tag)]: a [Tag] is true whatever it holds. *)
Definition tag_truth (t : tag) : bool := true.

(** The clean-up of a description: newlines and the "see less" control
    become spaces, then the words are joined by single spaces. *)
Definition experience_description (description_content : pystr) : pystr :=
  join (str " ")
    (split
       (replace (str "  ") (str " ")
          (replace (str "see less") (str " ")
             (replace [newline] (str " ") description_content)))).

(** The date-range text of an entry: the second [span] of the first
    [.pv-entity__date-range]. *)
Definition date_range_text (row_content : tag) : result pystr :=
  d <- getitem (select ".pv-entity__date-range" row_content) 0 ;;
  s <- getitem (select "span" d) 1 ;;
  Ok (get_text s).

(** The three reads that come before the dates in [parse_experience]. *)
Definition description_of (row_content : tag) : result pystr :=
  if truthy (select ".pv-entity__description" row_content) then
    d <- getitem (select ".pv-entity__description" row_content) 0 ;;
    Ok (experience_description (get_text d))
  else Ok [].

Definition location_of (row_content : tag) : result pystr :=
  if truthy (select ".pv-entity__location" row_content) then
    l <- getitem (select ".pv-entity__location" row_content) 0 ;;
    s <- getlast (select "span" l) ;;
    Ok (get_text s)
  else Ok [].

(** [(position, company)] of a role under a group, and of a flat entry. *)
Definition grouped_position_company (row_content grouped_content : tag)
  : result (pystr * pystr) :=
  h <- getitem (select "h3" row_content) 0 ;;
  s <- getlast (select "span" h) ;;
  let position := strip (get_text s) in
  c <- getitem (select ".pv-entity__company-summary-info" grouped_content) 0 ;;
  n <- getitem (select "span" c) 1 ;;
  Ok (position, strip (get_text n)).

Definition flat_position_company (row_content : tag) : result (pystr * pystr) :=
  h <- getitem (select "h3" row_content) 0 ;;
  let position := strip (get_text h) in
  t <- getitem (select ".pv-entity__secondary-title" row_content) 0 ;;
  let contents := split (get_text t) in
  Ok (position,
      join [] (filter (fun string => negb (contains (str "time") string))
                 contents)).

(** [if grouped_content: ... else: ...], where the default is [None]. *)
Definition position_company (row_content : tag) (grouped_content : option tag)
  : result (pystr * pystr) :=
  match grouped_content with
  | Some grouped =>
      if tag_truth grouped then grouped_position_company row_content grouped
      else flat_position_company row_content
  | None => flat_position_company row_content
  end.

Definition parse_experience (row_content : tag) (grouped_content : option tag)
  : result Experience.data :=
  description <- description_of row_content ;;
  location <- location_of row_content ;;
  named <- position_company row_content grouped_content ;;
  start_text <- date_range_text row_content ;;
  start_piece <- getitem (split_on en_dash start_text) 0 ;;
  end_text <- date_range_text row_content ;;
  end_piece <- getitem (split_on en_dash end_text) 1 ;;
  Ok {| Experience.company := snd named;
        Experience.start_date := strip start_piece;
        Experience.end_date := strip end_piece;
        Experience.position := fst named;
        Experience.location := location;
        Experience.description := description |}.

Definition parse_education (row_content : tag) : result Education.data :=
  current_item <- getitem (select ".pv-entity__summary-info" row_content) 0 ;;
  degree <-
    (if truthy (select ".pv-entity__degree-name" current_item) then
       d <- getitem (select ".pv-entity__degree-name" current_item) 0 ;;
       c <- getitem (select ".pv-entity__comma-item" d) 0 ;;
       Ok (get_text c)
     else Ok []) ;;
  field_of_study <-
    (if truthy (select ".pv-entity__fos" current_item) then
       f <- getitem (select ".pv-entity__fos" current_item) 0 ;;
       s <- getlast (select "span" f) ;;
       Ok (get_text s)
     else Ok []) ;;
  school <-
    (if truthy (select ".pv-entity__school-name" current_item) then
       s <- getitem (select ".pv-entity__school-name" current_item) 0 ;;
       Ok (get_text s)
     else Ok []) ;;
  dates <- getitem (select ".pv-entity__dates" current_item) 0 ;;
  start_end <-
    (if tag_truth dates then
       d0 <- getitem (select ".pv-entity__dates" current_item) 0 ;;
       t0 <- getitem (select "time" d0) 0 ;;
       d1 <- getitem (select ".pv-entity__dates" current_item) 0 ;;
       t1 <- getitem (select "time" d1) 1 ;;
       Ok (get_text t0, get_text t1)
     else Raise UnboundLocalError) ;;
  Ok {| Education.school := school;
        Education.field_of_study := field_of_study;
        Education.degree := degree;
        Education.start_date := fst start_end;
        Education.end_date := snd start_end |}.

(** [current_item.select('span')[i].get_text()], guarded the way the
    source guards it: by the number of children of [current_item]. *)
Definition span_text_beyond (current_item : tag) (i : nat) : result pystr :=
  if (len current_item <=? i)%nat then Ok []
  else s <- getitem (select "span" current_item) i ;; Ok (get_text s).

Definition parse_certification (row_content : tag) : result Certification.data :=
  current_item <-
    getitem (select ".pv-certifications__summary-info" row_content) 0 ;;
  from_spans <-
    (if truthy (select "span" current_item) then
       c <- getitem (select "span" current_item) 1 ;;
       issue_date <- span_text_beyond current_item 3 ;;
       due_date <- span_text_beyond current_item 4 ;;
       credential <- span_text_beyond current_item 5 ;;
       Ok (get_text c, issue_date, due_date, credential)
     else Ok ([], [], [], [])) ;;
  title <-
    (if truthy (select "h3" current_item) then
       h <- getitem (select "h3" current_item) 0 ;;
       Ok (get_text h)
     else Ok []) ;;
  let '(company, issue_date, due_date, credential) := from_spans in
  Ok {| Certification.company := company;
        Certification.title := title;
        Certification.issue_date := issue_date;
        Certification.due_date := due_date;
        Certification.credential := credential |}.

(** The clean-up [parse_about] applies to the text of the section. *)
Definition about_text (text : pystr) : pystr :=
  join (str " ")
    (split (replace (str "  ") (str " ") (replace [newline] (str " ") text))).

Definition parse_about (row_content : tag) : pystr :=
  about_text (get_text row_content).

End Parser.

Import Parser.

(** ** class Crawler: from a parsed section to records *)

Module Crawler.

Definition _validate_authentication (authenticated : bool) : result unit :=
  if authenticated then Ok tt else Raise Forbidden.

(** [soup] is [BeautifulSoup(method(), 'lxml')], the parsed markup of the
    section; [selector] is received and not used. *)
Definition _get_section_elements (selector : string) (soup : tag) : list tag :=
  select "html" soup.

(** The two kinds of value [isinstance(elements, list)] tells apart. *)
Inductive object :=
| TagObject (t : tag)
| ListObject (l : list tag).

Definition _fetch_arbitrary_data {A : Type}
    (soup : tag) (parser_method : tag -> result A) (selector : string)
  : result (list A) :=
  first <- getitem (_get_section_elements selector soup) 0 ;;
  let elements := TagObject first in
  match elements with
  | TagObject t =>
      (* if not isinstance(elements, list) *)
      item <- parser_method t ;; Ok [item]
  | ListObject l =>
      (* for item in elements: items.append(parser_method(item)) *)
      mapM parser_method l
  end.

(** [for row_detail in row.select('.pv-entity__role-details')], appending
    to [experiences]. *)
Fixpoint role_details_loop (row : tag) (details : list tag)
    (experiences : list Experience.data) : result (list Experience.data) :=
  match details with
  | [] => Ok experiences
  | row_detail :: rest =>
      e <- parse_experience row_detail (Some row) ;;
      role_details_loop row rest (experiences ++ [e])
  end.

(** The body of [for row in elements]. *)
Definition experience_row (row : tag) (experiences : list Experience.data)
  : result (list Experience.data) :=
  experiences <-
    (if truthy (select ".pv-entity__company-summary-info" row) then
       role_details_loop row (select ".pv-entity__role-details" row) experiences
     else Ok experiences) ;;
  if truthy (select ".pv-entity__secondary-title" row) then
    e <- parse_experience row None ;; Ok (experiences ++ [e])
  else Ok experiences.

(** [for row in elements]: iterating a tag visits its children; a child
    that is a string has no [select]. *)
Fixpoint experience_rows (rows : list (pystr + tag))
    (experiences : list Experience.data) : result (list Experience.data) :=
  match rows with
  | [] => Ok experiences
  | inl _ :: _ => Raise AttributeError
  | inr row :: rest =>
      experiences <- experience_row row experiences ;;
      experience_rows rest experiences
  end.

Definition fetch_experience_data (authenticated : bool) (soup : tag)
  : result (list Experience.data) :=
  _ <- _validate_authentication authenticated ;;
  elements <- getitem (_get_section_elements ".experience-section" soup) 0 ;;
  experience_rows (contents elements) [].

Definition fetch_education_data (authenticated : bool) (soup : tag)
  : result (list Education.data) :=
  _ <- _validate_authentication authenticated ;;
  _fetch_arbitrary_data soup parse_education ".education-section".

Definition fetch_certification_data (authenticated : bool) (soup : tag)
  : result (list Certification.data) :=
  _ <- _validate_authentication authenticated ;;
  _fetch_arbitrary_data soup parse_certification ".certification-section".

Definition fetch_about_data (authenticated : bool) (soup : tag)
  : result (list pystr) :=
  _ <- _validate_authentication authenticated ;;
  _fetch_arbitrary_data soup (fun t => Ok (parse_about t)) ".pv-about-section".

End Crawler.

Import Crawler.

(** ** Crawler._expand_items against the live page *)

Module Expander.

(** [sys.setrecursionlimit(100)] in [BaseCrawler.__init__]. *)
Definition recursion_limit : nat := 100.

(** The nested calls the interpreter still admits below a caller that
    runs at stack depth [depth]. *)
Definition frames_at (depth : nat) : nat := recursion_limit - depth.

(** [a == 'true'] for the value of [get_attribute], [None] when the
    attribute is absent. *)
Definition is_true (a : option string) : bool :=
  match a with
  | Some s => String.eqb s "true"
  | None => false
  end.

(** What the crawler asks of the browser, in the order it asks. *)
Inductive event (webelement : Type) :=
| Scanned
| Clicked (e : webelement).

Arguments Scanned {webelement}.
Arguments Clicked {webelement} e.

(** The live page and the requests made so far. *)
Record state (world webelement : Type) := State {
  page : world;
  log : list (event webelement)
}.

Arguments State {world webelement} page log.
Arguments page {world webelement} s.
Arguments log {world webelement} s.

(** [EC.element_to_be_clickable(element)] builds a condition object; the
    source tests the object and never calls it, and an object that
    defines neither [__bool__] nor [__len__] is true. *)
Inductive condition (webelement : Type) :=
| element_to_be_clickable (e : webelement).

Arguments element_to_be_clickable {webelement} e.

Definition condition_truth {webelement : Type} (c : condition webelement) : bool := true.

(** A call made in Python takes a frame of the interpreter: with none
    left the call raises [RecursionError], otherwise what is called runs
    with one frame fewer. *)
Definition python_call {A : Type} (frames : nat) (body : nat -> result A)
  : result A :=
  match frames with
  | O => Raise RecursionError
  | S inner => body inner
  end.

Section Driver.
Variables world webelement : Type.

(** What [section.find_elements_by_class_name(element_class)],
    [element.get_attribute(name)] and [element.click()] do once they
    are entered, given the frames that are left to them. *)
Variable find_elements_by_class_name :
  nat -> world -> webelement -> string -> result (list webelement).
Variable get_attribute :
  nat -> world -> webelement -> string -> result (option string).
Variable click : nat -> world -> webelement -> result world.

(** The four calls [_expand_items] makes besides the one to itself, made
    with [frames] frames left. *)
Definition call_find (frames : nat) (w : world) (section : webelement)
    (element_class : string) : result (list webelement) :=
  python_call frames (fun inner =>
    find_elements_by_class_name inner w section element_class).

Definition call_get_attribute (frames : nat) (w : world) (element : webelement)
    (name : string) : result (option string) :=
  python_call frames (fun inner => get_attribute inner w element name).

Definition call_condition (frames : nat) (element : webelement)
  : result (condition webelement) :=
  python_call frames (fun _ => Ok (element_to_be_clickable element)).

Definition call_click (frames : nat) (w : world) (element : webelement)
  : result world :=
  python_call frames (fun inner => click inner w element).

(** The [try] inside the loop, run with [frames] frames left; [None] is
    normal completion, and a stale element is passed over. *)
Definition visit (frames : nat) (st : state world webelement)
    (element : webelement) : state world webelement * option exn :=
  match call_get_attribute frames (page st) element "aria-expanded" with
  | Raise StaleElementReferenceException => (st, None)
  | Raise e => (st, Some e)
  | Ok a =>
      if negb (is_true a) then
        match call_condition frames element with
        | Raise StaleElementReferenceException => (st, None)
        | Raise e => (st, Some e)
        | Ok c =>
            if condition_truth c then
              let asked := log st ++ [Clicked element] in
              match call_click frames (page st) element with
              | Ok w => (State w asked, None)
              | Raise StaleElementReferenceException =>
                  (State (page st) asked, None)
              | Raise e => (State (page st) asked, Some e)
              end
            else (st, None)
        end
      else (st, None)
  end.

(** [for element in elements] *)
Fixpoint scan (frames : nat) (st : state world webelement)
    (elements : list webelement) : state world webelement * option exn :=
  match elements with
  | [] => (st, None)
  | element :: rest =>
      match visit frames st element with
      | (st', None) => scan frames st' rest
      | (st', Some e) => (st', Some e)
      end
  end.

(** [_expand_items] when the interpreter admits [frames] more calls:
    with none left the call itself raises [RecursionError], which the
    calling frame catches and returns on; once entered, one frame fewer
    is left for the calls it makes. *)
Fixpoint _expand_items (frames : nat) (st : state world webelement)
    (section : webelement) (element_class : string)
  : state world webelement * option exn :=
  match frames with
  | O => (st, Some RecursionError)
  | S deeper =>
      match call_find deeper (page st) section element_class with
      | Raise e => (st, Some e)
      | Ok elements =>
          match scan deeper (State (page st) (log st ++ [Scanned])) elements with
          | (st', Some e) => (st', Some e)
          | (st', None) =>
              match _expand_items deeper st' section element_class with
              | (st'', Some RecursionError) => (st'', None)
              | outcome => outcome
              end
          end
      end
  end.

Definition passes (l : list (event webelement)) : nat :=
  List.length (filter (fun e => match e with Scanned => true | Clicked _ => false end) l).

Definition clicks (l : list (event webelement)) : list webelement :=
  flat_map (fun e => match e with Scanned => [] | Clicked x => [x] end) l.

(** A browser whose methods need [need] frames below their own: with
    fewer they raise [RecursionError], and with those they raise nothing
    but stale references. *)
Definition runs_in (need : nat) : Prop :=
  (forall inner w s c,
      (inner < need -> find_elements_by_class_name inner w s c = Raise RecursionError)
      /\ (need <= inner -> exists l, find_elements_by_class_name inner w s c = Ok l))
  /\ (forall inner w e a,
        (inner < need -> get_attribute inner w e a = Raise RecursionError)
        /\ (need <= inner ->
            forall x, get_attribute inner w e a = Raise x ->
                      x = StaleElementReferenceException))
  /\ (forall inner w e,
        (inner < need -> click inner w e = Raise RecursionError)
        /\ (need <= inner ->
            forall x, click inner w e = Raise x ->
                      x = StaleElementReferenceException)).

(** The controls of [section] never read as collapsed: whenever they are
    found and the attribute of one is read, it is "true". *)
Definition reads_expanded (w : world) (section : webelement)
    (element_class : string) : Prop :=
  forall inner elements e a,
    find_elements_by_class_name inner w section element_class = Ok elements ->
    In e elements ->
    get_attribute inner w e "aria-expanded" = Ok a ->
    is_true a = true.
End Driver.

Arguments passes {webelement} l.
Arguments clicks {webelement} l.

End Expander.

Import Expander.

(** ** A page of reveal controls *)

Module Page.

(** A control: whether it reports [aria-expanded="true"], and whether a
    click reaches it. *)
Record control := Control {
  aria_expanded : bool;
  reachable : bool
}.

Definition world := list control.

(** Controls are addressed by position; position 0 also stands for the
    enclosing section. *)
Definition webelement := nat.

(** The methods of this browser need no frame below their own. *)
Definition find_elements_by_class_name (inner : nat) (w : world)
    (section : webelement) (element_class : string) : result (list webelement) :=
  Ok (seq 0 (List.length w)).

Definition get_attribute (inner : nat) (w : world) (e : webelement)
    (attribute : string) : result (option string) :=
  match nth_error w e with
  | Some c => Ok (Some (if aria_expanded c then "true" else "false"))
  | None => Raise StaleElementReferenceException
  end.

Fixpoint expand_at (w : world) (e : nat) : world :=
  match w, e with
  | [], _ => []
  | c :: r, O => Control true (reachable c) :: r
  | c :: r, S e' => c :: expand_at r e'
  end.

(** A click that reaches its control expands it; one that does not is
    lost. *)
Definition click (inner : nat) (w : world) (e : webelement) : result world :=
  match nth_error w e with
  | Some c => Ok (if reachable c then expand_at w e else w)
  | None => Raise StaleElementReferenceException
  end.

Definition expand (frames : nat) (w : world) : state world webelement * option exn :=
  _expand_items world webelement find_elements_by_class_name get_attribute click
    frames (State w []) 0 "pv-profile-section__see-more-inline".

(** Whether the control behind [e] can be clicked. *)
Definition clickable (w : world) (e : webelement) : bool :=
  match nth_error w e with
  | Some c => reachable c
  | None => false
  end.

(** Three controls: two already expanded, one collapsed and reachable. *)
Definition three_controls : world :=
  [Control true true; Control false true; Control true true].

(** Two controls, both expanded; one control, collapsed and out of reach. *)
Definition two_expanded : world := [Control true true; Control true true].
Definition one_out_of_reach : world := [Control false false].

End Page.

(** ** Sample markup *)

Module Samples.

Definition text (s : string) : pystr + tag := inl (str s).
Definition elem (n : string) (cl : list string) (cs : list (pystr + tag))
  : pystr + tag := inr (Tag n cl cs).

(** "Full-time . Acme" and "Jan 2020 - Mar 2021", with the middle dot and
    the en dash of the page. *)
Definition full_time_acme : pystr :=
  str "Full-time " ++ [middle_dot] ++ str " Acme".
Definition jan_2020_mar_2021 : pystr :=
  str "Jan 2020 " ++ [en_dash] ++ str " Mar 2021".

(** The flat entry of the specification's scenario.  Its empty span is
    written [<span/>]; whether the tree builder closes it at once, as
    here, or nests the next span in it, the second span that [select]
    finds is the one with the dates. *)
Definition engineer_at_acme : tag :=
  Tag "div" []
    [ elem "h3" [] [text "Engineer"];
      elem "span" ["pv-entity__secondary-title"] [inl full_time_acme];
      elem "div" ["pv-entity__date-range"]
        [ elem "span" [] []; elem "span" [] [inl jan_2020_mar_2021] ] ].

Definition flat_entry : pystr + tag := inr engineer_at_acme.

Definition scenario_fragment : list (pystr + tag) :=
  [ elem "div" ["experience-section"] [flat_entry] ].

(** A role of a grouped entry, and a grouped entry: one employer with
    its roles. *)
Definition range (first last : string) : pystr :=
  str first ++ [space; en_dash; space] ++ str last.

Definition role (title first last : string) : pystr + tag :=
  elem "li" ["pv-entity__role-details"]
    [ elem "h3" [] [elem "span" [] [text "Title"]; elem "span" [] [text title]];
      elem "div" ["pv-entity__date-range"]
        [ elem "span" [] [text "Dates Employed"];
          elem "span" [] [inl (range first last)] ] ].

Definition grouped_entry (employer : string) (roles : list (pystr + tag))
  : pystr + tag :=
  elem "li" []
    [ elem "div" ["pv-entity__company-summary-info"]
        [ elem "h3" []
            [elem "span" [] [text "Company Name"]; elem "span" [] [text employer]] ];
      elem "ul" [] roles ].

Definition globex : pystr + tag :=
  grouped_entry "Globex" [role "Manager" "Jan 2018" "Dec 2019"].

(** An entry that carries both markers: a group of two roles whose
    summary also holds a secondary title. *)
Definition both_markers : tag :=
  Tag "li" []
    [ elem "div" ["pv-entity__company-summary-info"]
        [ elem "h3" []
            [elem "span" [] [text "Company Name"]; elem "span" [] [text "Initech"]];
          elem "p" ["pv-entity__secondary-title"] [text "Part-time Initech"] ];
      elem "ul" []
        [ role "Analyst" "Feb 2015" "Mar 2016"; role "Lead" "Mar 2016" "Jan 2018" ] ].

(** A flat entry followed by a grouped one. *)
Definition flat_then_grouped : list (pystr + tag) :=
  [ elem "ul" [] [elem "li" [] [flat_entry]; globex] ].

(** A flat entry followed by the entry that carries both markers. *)
Definition flat_then_both_markers : list (pystr + tag) :=
  [ elem "ul" [] [elem "li" [] [flat_entry]; inr both_markers] ].

(** Education entries. *)
Definition education_entry (school first last : string) : pystr + tag :=
  elem "li" []
    [ elem "div" ["pv-entity__summary-info"]
        [ elem "h3" ["pv-entity__school-name"] [text school];
          elem "p" ["pv-entity__dates"]
            [ elem "span" [] [text "Dates attended"];
              elem "span" []
                [ elem "time" [] [text first]; inl [space; en_dash; space];
                  elem "time" [] [text last] ] ] ] ].

Definition two_schools : list (pystr + tag) :=
  [ elem "ul" []
      [ education_entry "MIT" "2010" "2014";
        education_entry "Stanford" "2014" "2016" ] ].

Definition school_without_dates : tag :=
  Tag "li" []
    [ elem "div" ["pv-entity__summary-info"]
        [ elem "h3" ["pv-entity__school-name"] [text "MIT"] ] ].

(** Certification entries: one whose summary holds a single [span],
    and one with two spans laid out over five children. *)
Definition certification_one_span : tag :=
  Tag "li" []
    [ elem "div" ["pv-certifications__summary-info"]
        [ elem "h3" [] [text "Cloud Architect"];
          elem "p" [] [elem "span" [] [text "Issuing authority"]] ] ].

Definition certification_spaced : tag :=
  Tag "li" []
    [ elem "div" ["pv-certifications__summary-info"]
        [ inl [newline];
          elem "h3" [] [text "Cloud Architect"];
          inl [newline];
          elem "p" []
            [ elem "span" [] [text "Issuing authority"];
              elem "span" [] [text "Initech"] ];
          inl [newline] ] ].

Definition certification_bare : tag :=
  Tag "li" []
    [ elem "div" ["pv-certifications__summary-info"] [text "Cloud Architect"] ].

End Samples.

Import Samples.

(** ** The company rule, as the specification words it *)

Module Described.

(** The tokens of a text read from the left; [current] is the token
    being read, last character first. *)
Fixpoint tokens_from (current : pystr) (s : pystr) : list pystr :=
  match s with
  | [] => push_word (rev current) []
  | c :: r =>
      if isspace c then push_word (rev current) (tokens_from [] r)
      else tokens_from (c :: current) r
  end.

Definition tokenize (s : pystr) : list pystr := tokens_from [] s.

(** "The secondary-title text, tokenized on whitespace, with any token
    containing the substring time removed, remaining tokens concatenated
    with no separator." *)
Definition flat_company (secondary_title : pystr) : pystr :=
  concat (filter (fun token => negb (contains (str "time") token))
            (tokenize secondary_title)).

End Described.

(** ** class Crawler: from the browser to the records *)

Module Session.

Section Browser.
Variables world webelement : Type.

(** [WebDriverWait(self.browser, 1).until(
      EC.presence_of_element_located((By.CLASS_NAME, class_name)))],
    which raises when the wait runs out, and
    [self.browser.find_elements_by_class_name(class_name)]. *)
Variable wait_until_present : world -> string -> result unit.
Variable browser_find_elements_by_class_name :
  world -> string -> result (list webelement).

(** The requests on an element that [_expand_items] makes. *)
Variable find_elements_by_class_name :
  nat -> world -> webelement -> string -> result (list webelement).
Variable get_attribute :
  nat -> world -> webelement -> string -> result (option string).
Variable click : nat -> world -> webelement -> result world.

(** [section.get_attribute('innerHTML')], a string for every element,
    and [skill.text]. *)
Variable inner_html : world -> webelement -> result string.
Variable text_of : world -> webelement -> result pystr.

(** [BeautifulSoup(html_section, 'lxml')] *)
Variable BeautifulSoup : string -> tag.

(** A method of the crawler: it may change the page, and returns or
    raises. *)
Definition action (A : Type) : Type :=
  state world webelement -> state world webelement * result A.

Definition ret {A : Type} (r : result A) : action A := fun st => (st, r).

Definition and_then {A B : Type} (m : action A) (k : A -> action B) : action B :=
  fun st =>
    match m st with
    | (st', Ok a) => k a st'
    | (st', Raise e) => (st', Raise e)
    end.

Definition _fetch_elements_by_class (class_name : string)
  : action (list webelement) :=
  fun st =>
    match wait_until_present (page st) class_name with
    | Raise e => (st, Raise e)
    | Ok _ => (st, browser_find_elements_by_class_name (page st) class_name)
    end.

(** [self._expand_items(section=section, ...)], where [section] may be
    [None]: [None] has no [find_elements_by_class_name]. *)
Definition _expand_items_on (frames : nat) (section : option webelement)
    (element_class : string) : action unit :=
  fun st =>
    match section with
    | Some s =>
        match _expand_items world webelement find_elements_by_class_name
                get_attribute click frames st s element_class with
        | (st', None) => (st', Ok tt)
        | (st', Some e) => (st', Raise e)
        end
    | None =>
        match frames with
        | O => (st, Raise RecursionError)
        | S _ => (st, Raise AttributeError)
        end
    end.

(** [section.get_attribute('innerHTML')] *)
Definition inner_html_of (section : option webelement) : action string :=
  fun st =>
    match section with
    | Some s => (st, inner_html (page st) s)
    | None => (st, Raise AttributeError)
    end.

(** [frames] is the number of calls the interpreter admits where
    [_expand_items] is called. *)
Definition _fetch_arbitrary_section_html (frames : nat) (class_name : string)
    (item_expander_class : string) : action string :=
  and_then (_fetch_elements_by_class class_name) (fun sections =>
  let section :=
    match sections with
    | first :: _ => Some first
    | [] => None
    end in
  and_then (_expand_items_on frames section item_expander_class) (fun _ =>
  inner_html_of section)).

Definition _fetch_about_section_html (frames : nat) : action string :=
  _fetch_arbitrary_section_html frames "pv-about-section" "lt-line-clamp__more".

Definition _fetch_education_section_html (frames : nat) : action string :=
  _fetch_arbitrary_section_html frames "education-section"
    "pv-profile-section__see-more-inline".

Definition _fetch_certification_section_html (frames : nat) : action string :=
  _fetch_arbitrary_section_html frames "certification-section"
    "pv-profile-section__see-more-inline".

Definition _fetch_experiences_section_html (frames : nat) : action string :=
  and_then (_fetch_elements_by_class "experience-section") (fun sections =>
  and_then (ret (getitem sections 0)) (fun experience_section =>
  and_then (_expand_items_on frames (Some experience_section)
              "inline-show-more-text__button") (fun _ =>
  and_then (_expand_items_on frames (Some experience_section)
              "pv-profile-section__see-more-inline") (fun _ =>
  inner_html_of (Some experience_section))))).

Definition _get_section_elements (selector : string) (method : action string)
  : action (list tag) :=
  and_then method (fun html_section =>
  let soup := BeautifulSoup html_section in
  ret (Ok (select "html" soup))).

Definition _fetch_arbitrary_data {A : Type} (section_method : action string)
    (parser_method : tag -> result A) (selector : string) : action (list A) :=
  and_then (_get_section_elements selector section_method) (fun rows =>
  and_then (ret (getitem rows 0)) (fun first =>
  match TagObject first with
  | TagObject t => ret (item <- parser_method t ;; Ok [item])
  | ListObject l => ret (mapM parser_method l)
  end)).

Definition fetch_about_data (authenticated : bool) (frames : nat)
  : action (list pystr) :=
  and_then (ret (_validate_authentication authenticated)) (fun _ =>
  _fetch_arbitrary_data (_fetch_about_section_html frames)
    (fun t => Ok (parse_about t)) ".pv-about-section").

Definition fetch_experience_data (authenticated : bool) (frames : nat)
  : action (list Experience.data) :=
  and_then (ret (_validate_authentication authenticated)) (fun _ =>
  and_then (_get_section_elements ".experience-section"
              (_fetch_experiences_section_html frames)) (fun rows =>
  and_then (ret (getitem rows 0)) (fun elements =>
  ret (experience_rows (contents elements) [])))).

Definition fetch_education_data (authenticated : bool) (frames : nat)
  : action (list Education.data) :=
  and_then (ret (_validate_authentication authenticated)) (fun _ =>
  _fetch_arbitrary_data (_fetch_education_section_html frames)
    parse_education ".education-section").

Definition fetch_certification_data (authenticated : bool) (frames : nat)
  : action (list Certification.data) :=
  and_then (ret (_validate_authentication authenticated)) (fun _ =>
  _fetch_arbitrary_data (_fetch_certification_section_html frames)
    parse_certification ".certification-section").

Definition fetch_skills_data (authenticated : bool) : action (list pystr) :=
  and_then (ret (_validate_authentication authenticated)) (fun _ =>
  and_then (_fetch_elements_by_class "pv-skill-category-entity__name-text")
    (fun elements st => (st, mapM (text_of (page st)) elements))).

End Browser.

End Session.

(** ** A browser over the page of controls *)

Module LivePage.

(** The first control stands for the section; a page without controls
    has no section. *)
Definition wait_until_present (w : Page.world) (class_name : string) : result unit :=
  Ok tt.

Definition browser_find_elements_by_class_name (w : Page.world)
    (class_name : string) : result (list Page.webelement) :=
  match w with
  | [] => Ok []
  | _ :: _ => Ok [0]
  end.

Definition inner_html (w : Page.world) (e : Page.webelement) : result string :=
  Ok "<ul></ul>".

Definition text_of (w : Page.world) (e : Page.webelement) : result pystr :=
  Ok (str "Rocq").

Definition BeautifulSoup (html : string) : tag :=
  lxml_document [inr (Tag "ul" [] [])].

(** A browser whose clicks are all intercepted. *)
Definition blocked_click (inner : nat) (w : Page.world) (e : Page.webelement)
  : result Page.world :=
  Raise WebDriverException.

End LivePage.

(** ** More sample markup *)

Module MoreSamples.

(** One education entry with its dates, and one whose dates block holds
    a single [time]. *)
Definition mit : tag :=
  Tag "li" []
    [ elem "div" ["pv-entity__summary-info"]
        [ elem "h3" ["pv-entity__school-name"] [text "MIT"];
          elem "p" ["pv-entity__dates"]
            [ elem "span" [] [text "Dates attended"];
              elem "span" []
                [ elem "time" [] [text "2010"]; inl [space; en_dash; space];
                  elem "time" [] [text "2014"] ] ] ] ].

(** A certification summary with three children and two spans. *)
Definition certification_short : tag :=
  Tag "li" []
    [ elem "div" ["pv-certifications__summary-info"]
        [ elem "h3" [] [text "Cloud Architect"];
          elem "span" [] [text "Issuing authority"];
          elem "span" [] [text "Initech"] ] ].

(** A section with two grouped entries, of two employers. *)
Definition two_employers : list (pystr + tag) :=
  [ elem "ul" []
      [ globex;
        grouped_entry "Initech" [role "Analyst" "Feb 2015" "Mar 2016"] ] ].

(** A flat entry with its date range and without a heading, and one
    whose date range holds two en dashes. *)
Definition entry_without_heading : tag :=
  Tag "div" []
    [ elem "span" ["pv-entity__secondary-title"] [inl full_time_acme];
      elem "div" ["pv-entity__date-range"]
        [ elem "span" [] []; elem "span" [] [inl jan_2020_mar_2021] ] ].

Definition jan_2020_mar_2021_present : pystr :=
  jan_2020_mar_2021 ++ [space; en_dash; space] ++ str "Present".

Definition entry_with_two_dashes : tag :=
  Tag "div" []
    [ elem "h3" [] [text "Engineer"];
      elem "span" ["pv-entity__secondary-title"] [inl full_time_acme];
      elem "div" ["pv-entity__date-range"]
        [ elem "span" [] []; elem "span" [] [inl jan_2020_mar_2021_present] ] ].

Definition two_employers_records : list Experience.data :=
  match fetch_experience_data true (lxml_document two_employers) with
  | Ok records => records
  | Raise _ => []
  end.

End MoreSamples.

Import MoreSamples.

(** ** Shapes of text *)

Module Shape.

(** A text that does not begin, or does not end, with whitespace. *)
Definition starts_solid (s : pystr) : Prop :=
  match s with
  | [] => True
  | c :: _ => isspace c = false
  end.

Definition ends_solid (s : pystr) : Prop := starts_solid (rev s).

(** A text of whitespace only. *)
Definition blank (s : pystr) : Prop := Forall (fun c => isspace c = true) s.

(** [t] is [s] without the whitespace at its two ends. *)
Definition trimmed_of (s t : pystr) : Prop :=
  exists before after,
    s = before ++ t ++ after
    /\ blank before /\ blank after /\ starts_solid t /\ ends_solid t.

End Shape.

Import Shape.

(** * Properties *)

(** ** Strings *)

Module PyStrFacts.

(** A word of [split]: not empty, no whitespace in it. *)
Definition solid (w : pystr) : Prop :=
  forallb (fun c => negb (isspace c)) w = true.

Definition word (w : pystr) : Prop := w <> [] /\ solid w.

Lemma push_word_nil ws : push_word [] ws = ws.
Proof. reflexivity. Qed.

Lemma push_word_cons w ws : w <> [] -> push_word w ws = w :: ws.
Proof. destruct w; [congruence | reflexivity]. Qed.

Lemma words_cons c r :
  words (c :: r) =
  if isspace c then ([], push_word (fst (words r)) (snd (words r)))
  else (c :: fst (words r), snd (words r)).
Proof. simpl. destruct (words r); reflexivity. Qed.

Lemma split_words s : split s = push_word (fst (words s)) (snd (words s)).
Proof. unfold split. destruct (words s); reflexivity. Qed.

Lemma push_word_words w ws : solid w -> Forall word ws -> Forall word (push_word w ws).
Proof.
  intros Hw Hws. destruct w as [|c w]; simpl; auto.
  constructor; auto. split; [discriminate | exact Hw].
Qed.

Lemma words_solid s : solid (fst (words s)) /\ Forall word (snd (words s)).
Proof.
  induction s as [|c r [IHw IHws]].
  - split; [reflexivity | constructor].
  - rewrite words_cons. destruct (isspace c) eqn:Hc; simpl.
    + split; [reflexivity | apply push_word_words; assumption].
    + split; [| assumption]. unfold solid in *. simpl. rewrite Hc. exact IHw.
Qed.

Lemma split_words_solid s : Forall word (split s).
Proof.
  rewrite split_words. destruct (words_solid s). apply push_word_words; assumption.
Qed.

Lemma words_app_solid w s :
  solid w -> words (w ++ s) = (w ++ fst (words s), snd (words s)).
Proof.
  unfold solid. induction w as [|c w IH]; simpl app; intros Hw.
  - destruct (words s); reflexivity.
  - simpl in Hw. apply andb_true_iff in Hw as [Hc Hw].
    rewrite words_cons, (IH Hw).
    apply negb_true_iff in Hc. rewrite Hc. reflexivity.
Qed.

Lemma words_join ws :
  Forall word ws ->
  words (join (str " ") ws) = match ws with [] => ([], []) | w :: r => (w, r) end.
Proof.
  induction 1 as [|w r [Hne Hw] Hr IH]; [reflexivity|].
  simpl join. destruct r as [|w' r'].
  - rewrite <- (app_nil_r w) at 1. rewrite words_app_solid by assumption.
    simpl. rewrite app_nil_r. reflexivity.
  - rewrite words_app_solid by assumption.
    change (str " " ++ join (str " ") (w' :: r'))
      with (space :: join (str " ") (w' :: r')).
    rewrite words_cons, IH. simpl.
    rewrite app_nil_r. f_equal.
    apply push_word_cons. inversion Hr as [|? ? [Hne' _] _]; assumption.
Qed.

(** Splitting what [" ".join] built from words gives the words back. *)
Lemma split_join ws : Forall word ws -> split (join (str " ") ws) = ws.
Proof.
  intros H. rewrite split_words, (words_join ws H).
  destruct H as [|w r [Hne _] _]; [reflexivity|].
  simpl. apply push_word_cons; assumption.
Qed.

(** Replacing a newline by a space moves no word boundary. *)
Lemma words_replace_newline s :
  words (replace [newline] (str " ") s) = words s.
Proof.
  unfold replace. change (str " ") with [space].
  induction s as [|c r IH]; [reflexivity|].
  cbn [replace_from starts_with]. rewrite andb_true_r.
  destruct (N.eqb_spec newline c) as [<-|Hc].
  - cbn [List.length Nat.sub app].
    rewrite !words_cons, IH. reflexivity.
  - rewrite !words_cons, IH. reflexivity.
Qed.

(** Replacing two spaces by one moves no word boundary either. *)
Lemma words_replace_spaces_upto n :
  forall s, (List.length s <= n)%nat ->
    words (replace (str "  ") (str " ") s) = words s.
Proof.
  unfold replace. change (str " ") with [space].
  change (str "  ") with [space; space].
  induction n as [|n IH]; intros s Hs.
  - destruct s; [reflexivity | simpl in Hs; lia].
  - destruct s as [|c r]; [reflexivity|].
    cbn [replace_from starts_with].
    destruct (N.eqb_spec space c) as [<-|Hc]; cbn [andb].
    + destruct r as [|d r']; [reflexivity|].
      rewrite andb_true_r.
      destruct (N.eqb_spec space d) as [<-|Hd].
      * cbn [List.length Nat.sub app replace_from].
        rewrite !words_cons. change (isspace space) with true. cbv iota.
        rewrite IH by (simpl in Hs; lia). reflexivity.
      * rewrite words_cons, IH by (simpl in Hs |- *; lia).
        rewrite <- words_cons. reflexivity.
    + rewrite words_cons, IH by (simpl in Hs; lia).
      rewrite <- words_cons. reflexivity.
Qed.

Lemma words_replace_spaces s :
  words (replace (str "  ") (str " ") s) = words s.
Proof. apply (words_replace_spaces_upto (List.length s)). lia. Qed.

(** Reading the tokens from the left gives the words of [split]. *)
Lemma tokens_from_words s :
  forall current,
    Described.tokens_from current s =
    push_word (rev current ++ fst (words s)) (snd (words s)).
Proof.
  induction s as [|c r IH]; intros current.
  - simpl. rewrite app_nil_r. destruct (rev current); reflexivity.
  - cbn [Described.tokens_from]. rewrite words_cons.
    destruct (isspace c); cbn [fst snd].
    + rewrite IH, app_nil_r. reflexivity.
    + rewrite IH. cbn [rev]. rewrite <- app_assoc. reflexivity.
Qed.

Lemma tokenize_split s : Described.tokenize s = split s.
Proof. unfold Described.tokenize. rewrite tokens_from_words, split_words. reflexivity. Qed.

Lemma join_nothing ws : join [] ws = concat ws.
Proof.
  induction ws as [|w r IH]; [reflexivity|].
  simpl. destruct r as [|w' r'].
  - simpl. rewrite app_nil_r. reflexivity.
  - rewrite <- IH. reflexivity.
Qed.

Lemma pieces_cons sep c r :
  pieces sep (c :: r) =
  if (c =? sep)%N then ([], fst (pieces sep r) :: snd (pieces sep r))
  else (c :: fst (pieces sep r), snd (pieces sep r)).
Proof. simpl. destruct (pieces sep r); reflexivity. Qed.

(** Without the separator there is one piece, the text itself. *)
Lemma pieces_without sep s : ~ In sep s -> pieces sep s = (s, []).
Proof.
  induction s as [|c r IH]; intros H; [reflexivity|].
  rewrite pieces_cons. destruct (N.eqb_spec c sep) as [->|Hc].
  - destruct H. left. reflexivity.
  - rewrite IH by (intros Hin; apply H; right; exact Hin). reflexivity.
Qed.

(** At the first separator the text falls into its left side and the
    pieces of its right side. *)
Lemma pieces_at_first sep left right :
  ~ In sep left ->
  pieces sep (left ++ sep :: right) =
  (left, fst (pieces sep right) :: snd (pieces sep right)).
Proof.
  induction left as [|c l IH]; intros H.
  - simpl app. rewrite pieces_cons, N.eqb_refl. reflexivity.
  - simpl app. rewrite pieces_cons. destruct (N.eqb_spec c sep) as [->|Hc].
    + destruct H. left. reflexivity.
    + rewrite IH by (intros Hin; apply H; right; exact Hin). reflexivity.
Qed.

Lemma first_occurrence (x : N) (l : list N) :
  In x l -> exists l1 l2, l = l1 ++ x :: l2 /\ ~ In x l1.
Proof.
  induction l as [|c r IH]; intros H; [destruct H|].
  destruct (N.eq_dec c x) as [->|Hc].
  - exists [], r. split; [reflexivity | intros []].
  - destruct H as [H|H]; [congruence|].
    destruct (IH H) as [l1 [l2 [-> Hl1]]].
    exists (c :: l1), l2. split; [reflexivity|].
    intros [Hin|Hin]; [congruence | exact (Hl1 Hin)].
Qed.

End PyStrFacts.

(** ** Results *)

Module ResultFacts.

Lemma bind_ok {A B : Type} (m : result A) (k : A -> result B) (b : B) :
  bind m k = Ok b -> exists a, m = Ok a /\ k a = Ok b.
Proof. destruct m as [a|e]; simpl; [eauto | discriminate]. Qed.

Lemma bind_raise {A B : Type} (m : result A) (k : A -> result B) (e : exn) :
  bind m k = Raise e -> m = Raise e \/ exists a, m = Ok a /\ k a = Raise e.
Proof. destruct m as [a|e']; simpl; [eauto | intros [= ->]; auto]. Qed.

Lemma getitem_nil {A : Type} (i : nat) : getitem (@nil A) i = Raise IndexError.
Proof. destruct i; reflexivity. Qed.

Lemma getitem_raises {A : Type} (l : list A) (i : nat) (e : exn) :
  getitem l i = Raise e -> e = IndexError.
Proof. unfold getitem. destruct (nth_error l i); congruence. Qed.

Lemma getlast_raises {A : Type} (l : list A) (e : exn) :
  getlast l = Raise e -> e = IndexError.
Proof. unfold getlast. destruct (rev l); congruence. Qed.

Lemma getitem_head {A : Type} (l : list A) (x : A) :
  getitem l 0 = Ok x -> exists r, l = x :: r.
Proof. destruct l as [|y r]; simpl; [discriminate | intros [= ->]; eauto]. Qed.

Lemma getitem_in {A : Type} (l : list A) (i : nat) (x : A) :
  getitem l i = Ok x -> In x l.
Proof.
  unfold getitem. destruct (nth_error l i) eqn:H; [|discriminate].
  intros [= ->]. eapply nth_error_In; eassumption.
Qed.

Lemma mapM_length {A B : Type} (f : A -> result B) (l : list A) (r : list B) :
  mapM f l = Ok r -> List.length r = List.length l.
Proof.
  revert r. induction l as [|x xs IH]; simpl; intros r H.
  - injection H as <-. reflexivity.
  - destruct (f x); simpl in H; [|discriminate].
    destruct (mapM f xs); simpl in H; [|discriminate].
    injection H as <-. simpl. f_equal. apply IH. reflexivity.
Qed.

Lemma bind_Ok {A : Type} (m : result A) : bind m Ok = m.
Proof. destruct m; reflexivity. Qed.

End ResultFacts.

(** ** Trees *)

Module SoupFacts.

Lemma descendants_child n cl cs c :
  In (inr c) cs -> incl (c :: descendants c) (descendants (Tag n cl cs)).
Proof.
  intros Hc d Hd. simpl. apply in_flat_map. exists (inr c). auto.
Qed.

Lemma descendants_inv n cl cs d :
  In d (descendants (Tag n cl cs)) ->
  exists c, In (inr c) cs /\ (d = c \/ In d (descendants c)).
Proof.
  simpl. intros H. apply in_flat_map in H as [[s|c] [Hin Hd]].
  - destruct Hd.
  - exists c. split; [assumption|]. destruct Hd as [<-|Hd]; auto.
Qed.

(** Below a descendant is below the tag. *)
Lemma descendants_below t :
  forall d, In d (descendants t) -> incl (descendants d) (descendants t).
Proof.
  induction t as [n cl cs IH] using tag_induction. intros d Hd x Hx.
  apply descendants_inv in Hd as [c [Hc [->|Hd]]].
  - apply (descendants_child n cl cs c Hc). right. assumption.
  - apply (descendants_child n cl cs c Hc). right. apply (IH c Hc d Hd x Hx).
Qed.

Lemma select_descendant s t d : In d (select s t) -> In d (descendants t).
Proof. unfold select. intros H. apply filter_In in H. tauto. Qed.

Lemma select_below s t d :
  In d (descendants t) -> incl (select s d) (select s t).
Proof.
  intros Hd x Hx. unfold select in *. apply filter_In in Hx as [Hx Hm].
  apply filter_In. split; [|assumption]. apply (descendants_below t d Hd x Hx).
Qed.

(** A marker absent under a tag is absent under all its descendants. *)
Lemma select_absent_below s t d :
  select s t = [] -> In d (descendants t) -> select s d = [].
Proof.
  intros Hnil Hd. destruct (select s d) as [|x r] eqn:E; [reflexivity|].
  assert (In x (select s t)) as H by (apply (select_below s t d Hd); rewrite E; left; reflexivity).
  rewrite Hnil in H. destruct H.
Qed.

Lemma select_child s n cl cs c :
  In (inr c) cs -> incl (select s c) (select s (Tag n cl cs)).
Proof.
  intros Hc. apply select_below. apply (descendants_child n cl cs c Hc). left. reflexivity.
Qed.

Lemma truthy_in {A : Type} (l : list A) (x : A) : In x l -> truthy l = true.
Proof. destruct l; [intros [] | reflexivity]. Qed.

Lemma truthy_incl {A : Type} (l l' : list A) :
  incl l l' -> l <> [] -> truthy l' = true.
Proof.
  intros Hi Hl. destruct l as [|x r]; [congruence|].
  apply (truthy_in l' x). apply Hi. left. reflexivity.
Qed.

End SoupFacts.

(** ** Parser *)

Module ParserSpec.

Import ResultFacts SoupFacts PyStrFacts.

(** The about text is the words of the section joined by single spaces:
    the two replacements change no word. *)
Lemma about_text_words text : about_text text = join (str " ") (split text).
Proof.
  unfold about_text. f_equal.
  rewrite !split_words, words_replace_spaces, words_replace_newline. reflexivity.
Qed.

(** C9. The clean-up of [parse_about] is idempotent: applied to its own
    output, for any text and so for the about text of any section, it
    returns that output unchanged. *)
Theorem parse_about_idempotent :
  (forall text, about_text (about_text text) = about_text text)
  /\ (forall row_content, about_text (parse_about row_content) = parse_about row_content).
Proof.
  assert (forall text, about_text (about_text text) = about_text text) as H.
  { intros text. rewrite !about_text_words.
    rewrite split_join by apply split_words_solid. reflexivity. }
  split; [exact H | intros row_content; apply H].
Qed.

(** Every exception [parse_education] raises is an [IndexError]. *)
Lemma parse_education_raises row_content e :
  parse_education row_content = Raise e -> e = IndexError.
Proof.
  unfold parse_education, tag_truth. intros H.
  repeat match type of H with
         | bind (if ?c then _ else _) _ = _ => destruct c
         | bind _ _ = Raise _ =>
             apply bind_raise in H as [H | [? [_ H]]]; cbv beta in H
         | getitem _ _ = Raise _ => apply getitem_raises in H; exact H
         | getlast _ = Raise _ => apply getlast_raises in H; exact H
         | Ok _ = Raise _ => discriminate H
         end.
Qed.

(** C4. An education entry without the [.pv-entity__dates] block makes
    [parse_education] raise [IndexError] (the error the specification
    names MalformedEntry): no record is returned for it. *)
Theorem parse_education_missing_dates row_content :
  select ".pv-entity__dates" row_content = [] ->
  parse_education row_content = Raise IndexError
  /\ forall record, parse_education row_content <> Ok record.
Proof.
  intros Hdates.
  assert (forall record, parse_education row_content <> Ok record) as Hno.
  { intros record H. unfold parse_education in H.
    apply bind_ok in H as [current_item [Hcur H]].
    apply bind_ok in H as [degree [_ H]].
    apply bind_ok in H as [field_of_study [_ H]].
    apply bind_ok in H as [school [_ H]].
    apply bind_ok in H as [dates [Hd _]].
    apply getitem_in, select_descendant in Hcur.
    rewrite (select_absent_below _ _ _ Hdates Hcur) in Hd. discriminate Hd. }
  split; [|exact Hno].
  destruct (parse_education row_content) as [record|e] eqn:E.
  - destruct (Hno record). reflexivity.
  - f_equal. apply (parse_education_raises row_content). exact E.
Qed.

Lemma parse_education_missing_dates_witness :
  parse_education school_without_dates = Raise IndexError
  /\ forall record, parse_education school_without_dates <> Ok record.
Proof. exact (parse_education_missing_dates school_without_dates eq_refl). Defined.

(** C3. The company of a flat entry is its secondary title cut at
    whitespace, the words that contain "time" dropped and the rest put
    together without a separator; for the scenario of the specification,
    where the title reads "Full-time . Acme" with a middle dot as a word
    of its own, the one record has the company ".Acme" (middle dot
    included), the position "Engineer" and the dates "Jan 2020" and
    "Mar 2021". *)
Theorem flat_company_drops_time_words :
  (forall row_content heading headings title titles,
      select "h3" row_content = heading :: headings ->
      select ".pv-entity__secondary-title" row_content = title :: titles ->
      position_company row_content None =
        Ok (strip (get_text heading), Described.flat_company (get_text title)))
  /\ fetch_experience_data true (lxml_document scenario_fragment) =
       Ok [ {| Experience.company := middle_dot :: str "Acme";
               Experience.start_date := str "Jan 2020";
               Experience.end_date := str "Mar 2021";
               Experience.position := str "Engineer";
               Experience.location := [];
               Experience.description := [] |} ].
Proof.
  split; [|reflexivity].
  intros row_content heading headings title titles Hh Ht.
  unfold position_company, flat_position_company, Described.flat_company.
  rewrite Hh, Ht, tokenize_split, <- join_nothing. reflexivity.
Qed.

Lemma flat_company_drops_time_words_witness :
  position_company engineer_at_acme None =
    Ok (str "Engineer", middle_dot :: str "Acme").
Proof.
  exact (proj1 flat_company_drops_time_words engineer_at_acme _ _ _ _
           eq_refl eq_refl).
Defined.

(** The scenario does not give the company "Acme". *)
Lemma scenario_company_is_not_acme :
  exists record,
    fetch_experience_data true (lxml_document scenario_fragment) = Ok [record]
    /\ Experience.company record = middle_dot :: str "Acme"
    /\ Experience.company record <> str "Acme".
Proof.
  eexists. split; [reflexivity|]. split; [reflexivity | discriminate].
Qed.

(** C5. A certification summary with a single [span], and one with two
    spans among five children, make [parse_certification] raise
    [IndexError] where an empty field was due. *)
Theorem parse_certification_short_of_spans :
  parse_certification certification_one_span = Raise IndexError
  /\ parse_certification certification_spaced = Raise IndexError.
Proof. split; reflexivity. Qed.

(** X3. Without any [span] and any [h3] in the summary, every field is
    the empty string. *)
Lemma parse_certification_bare row_content current_item items :
  select ".pv-certifications__summary-info" row_content = current_item :: items ->
  select "span" current_item = [] ->
  select "h3" current_item = [] ->
  parse_certification row_content =
    Ok {| Certification.company := [];
          Certification.title := [];
          Certification.issue_date := [];
          Certification.due_date := [];
          Certification.credential := [] |}.
Proof.
  intros Hc Hs Hh. unfold parse_certification. rewrite Hc. simpl.
  rewrite Hs, Hh. reflexivity.
Qed.

Lemma parse_certification_bare_witness :
  parse_certification certification_bare =
    Ok {| Certification.company := [];
          Certification.title := [];
          Certification.issue_date := [];
          Certification.due_date := [];
          Certification.credential := [] |}.
Proof.
  exact (parse_certification_bare certification_bare _ _ eq_refl eq_refl eq_refl).
Defined.

End ParserSpec.

(** ** Crawler: fetching records *)

Module CrawlerSpec.

Import ResultFacts SoupFacts.

(** The role loop appends the records of the roles, in their order. *)
Lemma role_details_loop_appends row details experiences :
  role_details_loop row details experiences =
  (records <- mapM (fun row_detail => parse_experience row_detail (Some row)) details ;;
   Ok (experiences ++ records)).
Proof.
  revert experiences. induction details as [|d ds IH]; intros experiences; simpl.
  - rewrite app_nil_r. reflexivity.
  - destruct (parse_experience d (Some row)) as [e|x]; simpl; [|reflexivity].
    rewrite IH. destruct (mapM _ ds) as [records|x]; simpl; [|reflexivity].
    rewrite <- app_assoc. reflexivity.
Qed.

(** For a fragment of body markup the loop of [fetch_experience_data]
    has one row to visit, the [body] element. *)
Lemma fetch_experience_data_body fragment :
  fragment <> [] ->
  fetch_experience_data true (lxml_document fragment) =
  experience_row (lxml_body fragment) [].
Proof.
  intros Hne. destruct fragment as [|node nodes]; [congruence|].
  unfold fetch_experience_data, _validate_authentication, _get_section_elements.
  cbn [bind].
  replace (getitem (select "html" (lxml_document (node :: nodes))) 0)
    with (Ok (lxml_html (node :: nodes))) by reflexivity.
  cbn [bind lxml_html contents experience_rows].
  apply bind_Ok.
Qed.

Lemma fetch_arbitrary_data_html {A : Type} fragment
    (parser_method : tag -> result A) selector :
  fragment <> [] ->
  _fetch_arbitrary_data (lxml_document fragment) parser_method selector =
  (item <- parser_method (lxml_html fragment) ;; Ok [item]).
Proof.
  intros Hne. destruct fragment as [|node nodes]; [congruence|].
  unfold _fetch_arbitrary_data, _get_section_elements.
  replace (getitem (select "html" (lxml_document (node :: nodes))) 0)
    with (Ok (lxml_html (node :: nodes))) by reflexivity.
  reflexivity.
Qed.

(** A successful [_fetch_arbitrary_data] holds one item. *)
Lemma fetch_arbitrary_data_single {A : Type} soup
    (parser_method : tag -> result A) selector items :
  _fetch_arbitrary_data soup parser_method selector = Ok items ->
  List.length items = 1.
Proof.
  unfold _fetch_arbitrary_data. intros H.
  apply bind_ok in H as [first [_ H]]. cbv beta zeta iota in H.
  apply bind_ok in H as [item [_ H]]. injection H as <-. reflexivity.
Qed.

(** C1. The row that [fetch_experience_data] visits is the [body]
    holding the whole section, not an entry.  When an entry of the
    section carries both the [.pv-entity__company-summary-info] and the
    [.pv-entity__secondary-title] marker, both paths run, on the
    section: one record for each role of the section, and after them
    one flat record parsed from the section.  For a flat entry followed
    by an entry with both markers the fetch returns three records: the
    two roles, then the flat record of the first entry; the entry with
    both markers, whose own flat parse is another record, gets none from
    the flat path, and the flat entry is listed last. *)
Theorem both_markers_flat_record_is_the_sections :
  (forall fragment entry,
      In entry (descendants (lxml_body fragment)) ->
      select ".pv-entity__company-summary-info" entry <> [] ->
      select ".pv-entity__secondary-title" entry <> [] ->
      let row := lxml_body fragment in
      fetch_experience_data true (lxml_document fragment) =
        (grouped <- mapM (fun row_detail => parse_experience row_detail (Some row))
                      (select ".pv-entity__role-details" row) ;;
         flat <- parse_experience row None ;;
         Ok (grouped ++ [flat])))
  /\ fetch_experience_data true (lxml_document flat_then_both_markers) =
       Ok [ {| Experience.company := str "Initech";
               Experience.start_date := str "Feb 2015";
               Experience.end_date := str "Mar 2016";
               Experience.position := str "Analyst";
               Experience.location := [];
               Experience.description := [] |};
            {| Experience.company := str "Initech";
               Experience.start_date := str "Mar 2016";
               Experience.end_date := str "Jan 2018";
               Experience.position := str "Lead";
               Experience.location := [];
               Experience.description := [] |};
            {| Experience.company := middle_dot :: str "Acme";
               Experience.start_date := str "Jan 2020";
               Experience.end_date := str "Mar 2021";
               Experience.position := str "Engineer";
               Experience.location := [];
               Experience.description := [] |} ]
  /\ parse_experience both_markers None =
       Ok {| Experience.company := str "Initech";
             Experience.start_date := str "Feb 2015";
             Experience.end_date := str "Mar 2016";
             Experience.position := str "Company NameInitech";
             Experience.location := [];
             Experience.description := [] |}
  /\ parse_experience engineer_at_acme None =
       Ok {| Experience.company := middle_dot :: str "Acme";
             Experience.start_date := str "Jan 2020";
             Experience.end_date := str "Mar 2021";
             Experience.position := str "Engineer";
             Experience.location := [];
             Experience.description := [] |}.
Proof.
  split; [|repeat split].
  intros fragment entry Hin Hg Hf row.
  assert (fragment <> []) as Hne by (intros ->; destruct Hin).
  assert (truthy (select ".pv-entity__company-summary-info" row) = true) as Tg
    by exact (truthy_incl _ _ (select_below _ row entry Hin) Hg).
  assert (truthy (select ".pv-entity__secondary-title" row) = true) as Tf
    by exact (truthy_incl _ _ (select_below _ row entry Hin) Hf).
  rewrite (fetch_experience_data_body fragment Hne). fold row.
  unfold experience_row.
  rewrite Tg, Tf, role_details_loop_appends.
  destruct (mapM _ (select ".pv-entity__role-details" row)); reflexivity.
Qed.

Lemma both_markers_flat_record_is_the_sections_witness :
  let row := lxml_body flat_then_both_markers in
  fetch_experience_data true (lxml_document flat_then_both_markers) =
    (grouped <- mapM (fun row_detail => parse_experience row_detail (Some row))
                  (select ".pv-entity__role-details" row) ;;
     flat <- parse_experience row None ;;
     Ok (grouped ++ [flat])).
Proof.
  apply (proj1 both_markers_flat_record_is_the_sections
           flat_then_both_markers both_markers).
  - simpl. do 8 right. left. reflexivity.
  - discriminate.
  - discriminate.
Defined.

(** C2. For an education section with two entries
    [fetch_education_data] returns one record, that of the first entry;
    whatever the section holds, a fetch that succeeds returns one
    record. *)
Theorem fetch_education_data_single_record :
  fetch_education_data true (lxml_document two_schools) =
    Ok [ {| Education.school := str "MIT";
            Education.field_of_study := [];
            Education.degree := [];
            Education.start_date := str "2010";
            Education.end_date := str "2014" |} ]
  /\ List.length (select ".pv-entity__summary-info" (lxml_html two_schools)) = 2
  /\ forall authenticated soup records,
       fetch_education_data authenticated soup = Ok records ->
       List.length records = 1.
Proof.
  split; [reflexivity | split; [reflexivity|]].
  intros authenticated soup records H. unfold fetch_education_data in H.
  apply bind_ok in H as [_ [_ H]].
  apply (fetch_arbitrary_data_single _ _ _ _ H).
Qed.

(** C10. For a flat entry followed by a grouped entry the list opens
    with the record of the grouped entry's role; the record of the flat
    entry, first in the document, comes last. *)
Theorem fetch_experience_data_flat_after_grouped :
  fetch_experience_data true (lxml_document flat_then_grouped) =
    Ok [ {| Experience.company := str "Globex";
            Experience.start_date := str "Jan 2018";
            Experience.end_date := str "Dec 2019";
            Experience.position := str "Manager";
            Experience.location := [];
            Experience.description := [] |};
         {| Experience.company := middle_dot :: str "Acme";
            Experience.start_date := str "Jan 2020";
            Experience.end_date := str "Mar 2021";
            Experience.position := str "Engineer";
            Experience.location := [];
            Experience.description := [] |} ].
Proof. reflexivity. Qed.

(** What one row adds to the list. *)
Lemma experience_row_appends row experiences :
  experience_row row experiences =
  (records <- experience_row row [] ;; Ok (experiences ++ records)).
Proof.
  unfold experience_row.
  destruct (truthy (select ".pv-entity__company-summary-info" row)).
  - rewrite !role_details_loop_appends.
    destruct (mapM _ (select ".pv-entity__role-details" row)) as [g|x]; simpl;
      [|reflexivity].
    destruct (truthy (select ".pv-entity__secondary-title" row)).
    + destruct (parse_experience row None); simpl; [|reflexivity].
      rewrite app_assoc. reflexivity.
    + simpl. reflexivity.
  - simpl. destruct (truthy (select ".pv-entity__secondary-title" row)).
    + destruct (parse_experience row None); reflexivity.
    + simpl. rewrite app_nil_r. reflexivity.
Qed.

(** X1. The rows the loop visits contribute in the order of the visit,
    and a row with both markers puts its role records before its flat
    one. *)
Theorem experience_rows_in_visit_order rows experiences :
  experience_rows (map inr rows) experiences =
    (per_row <- mapM (fun row => experience_row row []) rows ;;
     Ok (experiences ++ concat per_row))
  /\ forall row,
       truthy (select ".pv-entity__company-summary-info" row) = true ->
       truthy (select ".pv-entity__secondary-title" row) = true ->
       experience_row row [] =
         (grouped <- mapM (fun row_detail => parse_experience row_detail (Some row))
                       (select ".pv-entity__role-details" row) ;;
          flat <- parse_experience row None ;;
          Ok (grouped ++ [flat])).
Proof.
  split.
  - revert experiences. induction rows as [|row rest IH]; intros experiences; simpl.
    + rewrite app_nil_r. reflexivity.
    + rewrite experience_row_appends.
      destruct (experience_row row []) as [records|x]; simpl; [|reflexivity].
      rewrite IH. destruct (mapM _ rest) as [per_row|x]; simpl; [|reflexivity].
      rewrite app_assoc. reflexivity.
  - intros row Hg Hf. unfold experience_row. rewrite Hg, Hf.
    rewrite role_details_loop_appends.
    destruct (mapM _ (select ".pv-entity__role-details" row)); reflexivity.
Qed.

End CrawlerSpec.

(** ** Expander *)

Module ExpanderSpec.

Section AnyBrowser.
Variables world webelement : Type.
Variable find_elements_by_class_name :
  nat -> world -> webelement -> string -> result (list webelement).
Variable get_attribute :
  nat -> world -> webelement -> string -> result (option string).
Variable click : nat -> world -> webelement -> result world.

#[local] Abbreviation call_find :=
  (call_find world webelement find_elements_by_class_name).
#[local] Abbreviation call_get_attribute :=
  (call_get_attribute world webelement get_attribute).
#[local] Abbreviation call_click := (call_click world webelement click).
#[local] Abbreviation visit := (visit world webelement get_attribute click).
#[local] Abbreviation scan := (scan world webelement get_attribute click).
#[local] Abbreviation expand :=
  (_expand_items world webelement find_elements_by_class_name get_attribute click).

Lemma passes_app (l l' : list (event webelement)) :
  passes (l ++ l') = passes l + passes l'.
Proof. unfold passes. rewrite filter_app, length_app. reflexivity. Qed.

Lemma clicks_app (l l' : list (event webelement)) :
  clicks (l ++ l') = clicks l ++ clicks l'.
Proof. unfold clicks. apply flat_map_app. Qed.

(** A visit either leaves the state alone or logs one click on the
    element it was given, the latter when the attribute was read and is
    not "true". *)
Lemma visit_cases frames st e :
  (fst (visit frames st e) = st
   /\ ~ (exists a, call_get_attribute frames (page st) e "aria-expanded" = Ok a
                   /\ is_true a = false))
  \/ (exists a, call_get_attribute frames (page st) e "aria-expanded" = Ok a
                /\ is_true a = false
                /\ log (fst (visit frames st e)) = log st ++ [Clicked e]
                /\ (page (fst (visit frames st e)) = page st
                    \/ call_click frames (page st) e
                       = Ok (page (fst (visit frames st e))))).
Proof.
  destruct frames as [|inner]; unfold Expander.visit.
  - left. split; [reflexivity|]. intros [a [Ha _]]. discriminate Ha.
  - destruct (call_get_attribute (S inner) (page st) e "aria-expanded")
      as [a|x] eqn:Hget.
    + destruct (is_true a) eqn:Ha; simpl.
      * left. split; [reflexivity|]. intros [b [Hb Hf]]. congruence.
      * right. exists a. split; [reflexivity | split; [exact Ha|]].
        unfold Expander.call_click, python_call.
        destruct (click inner (page st) e) as [w|[]]; simpl; auto.
    + left. split; [destruct x; reflexivity|]. intros [b [Hb _]]. discriminate Hb.
Qed.

Lemma visit_passes frames st e :
  passes (log (fst (visit frames st e))) = passes (log st).
Proof.
  destruct (visit_cases frames st e) as [[-> _] | [a [_ [_ [-> _]]]]]; [reflexivity|].
  rewrite passes_app. change (passes [Clicked e]) with 0. lia.
Qed.

Lemma scan_passes frames elements :
  forall st, passes (log (fst (scan frames st elements))) = passes (log st).
Proof.
  induction elements as [|e rest IH]; intros st; [reflexivity|].
  simpl. pose proof (visit_passes frames st e) as Hv.
  destruct (visit frames st e) as [st' [x|]]; simpl in *; [exact Hv|].
  rewrite IH. exact Hv.
Qed.

Lemma expand_unfold frames st section element_class :
  expand (S frames) st section element_class =
  match call_find frames (page st) section element_class with
  | Raise e => (st, Some e)
  | Ok elements =>
      match scan frames (State (page st) (log st ++ [Scanned])) elements with
      | (st', Some e) => (st', Some e)
      | (st', None) =>
          match expand frames st' section element_class with
          | (st'', Some RecursionError) => (st'', None)
          | outcome => outcome
          end
      end
  end.
Proof. reflexivity. Qed.

(** Whatever the browser does, the frame that the expansion runs in is
    not a pass: the passes are fewer than the frames that were left. *)
Lemma expand_passes_below frames :
  forall st section element_class,
    passes (log (fst (expand frames st section element_class)))
    <= passes (log st) + pred frames.
Proof.
  induction frames as [|deeper IH]; intros st section element_class.
  - simpl. lia.
  - rewrite expand_unfold.
    destruct deeper as [|inner]; [simpl; lia|].
    destruct (call_find (S inner) (page st) section element_class)
      as [elements|x]; [|simpl; lia].
    pose proof (scan_passes (S inner) elements
                  (State (page st) (log st ++ [Scanned]))) as Hs.
    cbn [log] in Hs. rewrite passes_app in Hs.
    change (passes [@Scanned webelement]) with 1 in Hs.
    destruct (scan (S inner) _ elements) as [st' [x|]];
      cbn [fst] in *; [simpl; lia|].
    pose proof (IH st' section element_class) as Hd.
    destruct (expand (S inner) st' section element_class) as [st'' [[]|]];
      cbn [fst pred] in *; lia.
Qed.

(** X2. Whatever the browser does, the passes made are never more than
    the frames that were left. *)
Lemma expand_passes_bounded frames :
  forall st section element_class,
    passes (log (fst (expand frames st section element_class)))
    <= passes (log st) + frames.
Proof.
  intros st section element_class.
  pose proof (expand_passes_below frames st section element_class). lia.
Qed.

(** A [RecursionError] that comes out of the expansion was raised in
    its first frame, by the search for the controls or during the pass:
    the one of a deeper frame is caught. *)
Lemma expand_recursion_error frames st section element_class :
  snd (expand (S frames) st section element_class) = Some RecursionError ->
  call_find frames (page st) section element_class = Raise RecursionError
  \/ (exists elements,
        call_find frames (page st) section element_class = Ok elements
        /\ snd (scan frames (State (page st) (log st ++ [Scanned])) elements)
           = Some RecursionError).
Proof.
  rewrite expand_unfold.
  destruct (call_find frames (page st) section element_class) as [elements|x].
  - intros H. right. exists elements. split; [reflexivity|].
    destruct (scan frames _ elements) as [st' [x|]]; [exact H|].
    destruct (expand frames st' section element_class) as [st'' [[]|]];
      discriminate H.
  - simpl. intros H. left. congruence.
Qed.

(** Controls that never read as collapsed are never clicked. *)
Lemma scan_idle frames elements :
  forall st,
    (forall e a, In e elements ->
       call_get_attribute frames (page st) e "aria-expanded" = Ok a ->
       is_true a = true) ->
    fst (scan frames st elements) = st.
Proof.
  induction elements as [|e rest IH]; intros st H; [reflexivity|].
  simpl.
  destruct (visit_cases frames st e) as [[Hsame _] | [a [Ha [Hf _]]]].
  - destruct (visit frames st e) as [st' [x|]]; simpl in Hsame; subst st';
      [reflexivity|].
    apply IH. intros e' a' He'. apply H. right. exact He'.
  - rewrite (H e a (or_introl eq_refl) Ha) in Hf. discriminate Hf.
Qed.

Lemma expand_idle frames :
  forall st section element_class,
    reads_expanded world webelement find_elements_by_class_name get_attribute
      (page st) section element_class ->
    page (fst (expand frames st section element_class)) = page st
    /\ clicks (log (fst (expand frames st section element_class)))
       = clicks (log st).
Proof.
  induction frames as [|deeper IH]; intros st section element_class H.
  - split; reflexivity.
  - rewrite expand_unfold.
    destruct (call_find deeper (page st) section element_class)
      as [elements|x] eqn:Hfind; [|split; reflexivity].
    destruct deeper as [|inner]; [discriminate Hfind|].
    assert (fst (scan (S inner) (State (page st) (log st ++ [Scanned])) elements)
            = State (page st) (log st ++ [Scanned])) as Hs.
    { apply scan_idle. intros e a He Ha. exact (H inner elements e a Hfind He Ha). }
    destruct (scan (S inner) _ elements) as [st' [x|]]; cbn [fst] in Hs; subst st'.
    + cbn [fst page log]. rewrite clicks_app. simpl. rewrite app_nil_r.
      split; reflexivity.
    + destruct (IH (State (page st) (log st ++ [Scanned])) section element_class H)
        as [Hp Hc].
      cbn [page log] in Hp, Hc. rewrite clicks_app in Hc.
      change (clicks [@Scanned webelement]) with (@nil webelement) in Hc.
      rewrite app_nil_r in Hc.
      destruct (expand (S inner) _ section element_class) as [st'' [[]|]];
        cbn [fst] in *; split; assumption.
Qed.

(** A pass goes through its elements in order, and stops at the first
    visit that raises. *)
Lemma scan_app frames before :
  forall st after,
    scan frames st (before ++ after) =
    match scan frames st before with
    | (st1, None) => scan frames st1 after
    | (st1, Some x) => (st1, Some x)
    end.
Proof.
  induction before as [|e rest IH]; intros st after; [reflexivity|].
  simpl. destruct (visit frames st e) as [st' [x|]]; [reflexivity|].
  apply IH.
Qed.

Section RunsIn.
Variable need : nat.
Hypothesis able :
  runs_in world webelement find_elements_by_class_name get_attribute click need.

Lemma visit_completes frames st e :
  need < frames -> snd (visit frames st e) = None.
Proof.
  intros Hf. destruct frames as [|inner]; [lia|].
  destruct able as [_ [Hget Hclick]]. unfold Expander.visit.
  destruct (call_get_attribute (S inner) (page st) e "aria-expanded")
    as [a|x] eqn:Ha.
  - destruct (negb (is_true a)); [|reflexivity]. simpl.
    destruct (click inner (page st) e) as [w|x] eqn:Hc; [reflexivity|].
    destruct (Hclick inner (page st) e) as [_ Hst].
    rewrite (Hst ltac:(lia) x Hc). reflexivity.
  - destruct (Hget inner (page st) e "aria-expanded") as [_ Hst].
    rewrite (Hst ltac:(lia) x Ha). reflexivity.
Qed.

Lemma scan_completes frames elements :
  need < frames -> forall st, snd (scan frames st elements) = None.
Proof.
  intros Hf. induction elements as [|e rest IH]; intros st; [reflexivity|].
  simpl. pose proof (visit_completes frames st e Hf) as Hv.
  destruct (visit frames st e) as [st' [x|]]; simpl in Hv; [discriminate|].
  apply IH.
Qed.

(** With too few frames for the search of the controls, the expansion
    raises [RecursionError] before any pass. *)
Lemma expand_out_of_frames frames st section element_class :
  frames <= need + 1 ->
  expand frames st section element_class = (st, Some RecursionError).
Proof.
  intros Hf. destruct frames as [|deeper]; [reflexivity|].
  rewrite expand_unfold. destruct deeper as [|inner]; [reflexivity|].
  destruct able as [Hfind _].
  destruct (Hfind inner (page st) section element_class) as [Hlow _].
  unfold Expander.call_find, python_call. rewrite (Hlow ltac:(lia)).
  reflexivity.
Qed.

Lemma call_find_runs frames w section element_class :
  need < frames ->
  exists elements, call_find frames w section element_class = Ok elements.
Proof.
  intros Hf. destruct frames as [|inner]; [lia|].
  destruct able as [Hfind _].
  destruct (Hfind inner w section element_class) as [_ Hok].
  apply Hok. lia.
Qed.

(** With frames for it, the expansion returns normally, after one pass
    for every frame in which the search of the controls could run. *)
Lemma expand_uses_frames frames :
  forall st section element_class,
    need + 2 <= frames ->
    let out := expand frames st section element_class in
    snd out = None
    /\ passes (log (fst out)) = passes (log st) + (frames - need - 1).
Proof.
  induction frames as [|deeper IH]; intros st section element_class Hf out;
    subst out; [lia|].
  rewrite expand_unfold.
  destruct (call_find_runs deeper (page st) section element_class ltac:(lia))
    as [elements ->].
  pose proof (scan_passes deeper elements
                (State (page st) (log st ++ [Scanned]))) as Hp.
  pose proof (scan_completes deeper elements ltac:(lia)
                (State (page st) (log st ++ [Scanned]))) as Hc.
  cbn [log] in Hp. rewrite passes_app in Hp.
  change (passes [@Scanned webelement]) with 1 in Hp.
  destruct (scan deeper _ elements) as [st' [x|]]; simpl in Hc;
    [discriminate|]. cbn [fst] in Hp.
  destruct (Nat.le_gt_cases deeper (need + 1)) as [Hlast | Hmore].
  - rewrite (expand_out_of_frames deeper st' section element_class Hlast).
    cbn [fst snd]. split; [reflexivity | lia].
  - destruct (IH st' section element_class ltac:(lia)) as [Hn Hq].
    destruct (expand deeper st' section element_class) as [st'' [x|]];
      cbn [fst snd] in *; [discriminate|].
    split; [reflexivity | lia].
Qed.
End RunsIn.
End AnyBrowser.

Lemma clicks_scans (webelement : Type) n :
  clicks (repeat (@Scanned webelement) n) = [].
Proof. induction n; [reflexivity | exact IHn]. Qed.

Lemma passes_scans (webelement : Type) n :
  passes (repeat (@Scanned webelement) n) = n.
Proof. induction n; [reflexivity | unfold passes in *; simpl; f_equal; exact IHn]. Qed.

(** The methods of the page of controls need no frame below their own,
    and raise nothing but stale references. *)
Lemma page_runs_in :
  runs_in Page.world Page.webelement
    Page.find_elements_by_class_name Page.get_attribute Page.click 0.
Proof.
  split; [|split].
  - intros inner w s c. split; [lia|]. intros _. eexists. reflexivity.
  - intros inner w e a. split; [lia|]. intros _ x. unfold Page.get_attribute.
    destruct (nth_error w e); congruence.
  - intros inner w e. split; [lia|]. intros _ x. unfold Page.click.
    destruct (nth_error w e); congruence.
Qed.

(** Three expanded controls read as expanded. *)
Lemma page_reads_expanded section element_class :
  reads_expanded Page.world Page.webelement
    Page.find_elements_by_class_name Page.get_attribute
    [Page.Control true true; Page.Control true true; Page.Control true true]
    section element_class.
Proof.
  intros inner elements e a Hf He Ha. injection Hf as <-.
  destruct He as [<-|[<-|[<-|[]]]]; injection Ha as <-; reflexivity.
Qed.







End ExpanderSpec.

(** * Further properties *)

(** ** Trimmed and tidy text *)

Module PyStrMore.

Import PyStrFacts.

Lemma lstrip_starts_solid s : starts_solid (lstrip s).
Proof.
  induction s as [|c r IH]; simpl; [exact I|].
  destruct (isspace c) eqn:Hc; [exact IH | exact Hc].
Qed.

Lemma lstrip_fixed s : starts_solid s -> lstrip s = s.
Proof. destruct s as [|c r]; simpl; [reflexivity | intros ->; reflexivity]. Qed.

(** What [lstrip] removes sits in front of what it keeps. *)
Lemma lstrip_suffix s : exists t, s = t ++ lstrip s.
Proof.
  induction s as [|c r [t Ht]]; [exists []; reflexivity|].
  simpl. destruct (isspace c).
  - exists (c :: t). simpl. f_equal. exact Ht.
  - exists []. reflexivity.
Qed.

Lemma rstrip_prefix s : exists t, s = rstrip s ++ t.
Proof.
  destruct (lstrip_suffix (rev s)) as [t Ht]. exists (rev t).
  unfold rstrip. rewrite <- rev_app_distr, <- Ht, rev_involutive. reflexivity.
Qed.

Lemma strip_fixed s : starts_solid s -> ends_solid s -> strip s = s.
Proof.
  intros Hs He. unfold strip, rstrip. rewrite (lstrip_fixed s Hs).
  rewrite (lstrip_fixed (rev s) He). apply rev_involutive.
Qed.

Lemma strip_starts_solid s : starts_solid (strip s).
Proof.
  unfold strip. pose proof (lstrip_starts_solid s) as Hu.
  destruct (rstrip_prefix (lstrip s)) as [t Ht].
  destruct (rstrip (lstrip s)) as [|c r]; [exact I|].
  rewrite Ht in Hu. exact Hu.
Qed.

Lemma strip_ends_solid s : ends_solid (strip s).
Proof.
  unfold ends_solid, strip, rstrip. rewrite rev_involutive.
  apply lstrip_starts_solid.
Qed.

Lemma strip_strip s : strip (strip s) = strip s.
Proof. apply strip_fixed; [apply strip_starts_solid | apply strip_ends_solid]. Qed.

Lemma solid_rev w : solid w -> solid (rev w).
Proof.
  unfold solid. rewrite !forallb_forall. intros H c Hc.
  apply H. apply in_rev. exact Hc.
Qed.

Lemma solid_starts w : solid w -> starts_solid w.
Proof.
  unfold solid. destruct w as [|c r]; simpl; [trivial|].
  intros H. apply andb_true_iff in H as [H _]. apply negb_true_iff. exact H.
Qed.

Lemma solid_app a b : solid a -> solid b -> solid (a ++ b).
Proof.
  unfold solid. rewrite forallb_app. intros -> ->. reflexivity.
Qed.

Lemma starts_solid_app a b : a <> [] -> starts_solid a -> starts_solid (a ++ b).
Proof. destruct a; [congruence | trivial]. Qed.

Lemma join_nonempty w ws : w <> [] -> join (str " ") (w :: ws) <> [].
Proof.
  intros Hw. simpl. destruct ws; [exact Hw|].
  destruct w; [congruence | discriminate].
Qed.

Lemma join_cons w w' ws :
  join (str " ") (w :: w' :: ws) = w ++ space :: join (str " ") (w' :: ws).
Proof. reflexivity. Qed.

Lemma join_starts_solid ws : Forall word ws -> starts_solid (join (str " ") ws).
Proof.
  intros H. destruct H as [|w r [Hne Hw] Hr]; [exact I|].
  destruct r as [|w' r'].
  - apply solid_starts. exact Hw.
  - rewrite join_cons. apply starts_solid_app; [exact Hne | apply solid_starts; exact Hw].
Qed.

Lemma join_head w ws :
  Forall word (w :: ws) ->
  exists d t, join (str " ") (w :: ws) = d :: t /\ isspace d = false.
Proof.
  intros H. pose proof (join_starts_solid (w :: ws) H) as Hs.
  inversion H as [|? ? [Hne _] _]. subst.
  destruct (join (str " ") (w :: ws)) as [|d t] eqn:Ej.
  - destruct (join_nonempty w ws Hne Ej).
  - exists d, t. split; [reflexivity | exact Hs].
Qed.

Lemma join_ends_solid ws : Forall word ws -> ends_solid (join (str " ") ws).
Proof.
  unfold ends_solid.
  induction 1 as [|w r [Hne Hw] Hr IH]; [exact I|].
  destruct r as [|w' r'].
  - apply solid_starts, solid_rev. exact Hw.
  - rewrite join_cons, rev_app_distr. cbn [rev]. rewrite <- app_assoc.
    apply starts_solid_app; [|exact IH].
    intros Hnil. apply (f_equal (@rev N)) in Hnil. rewrite rev_involutive in Hnil.
    inversion Hr as [|? ? [Hne' _] _]. exact (join_nonempty w' r' Hne' Hnil).
Qed.

Lemma solid_not_space w c : solid w -> In c w -> isspace c = false.
Proof.
  unfold solid. rewrite forallb_forall. intros H Hc.
  apply negb_true_iff. apply H. exact Hc.
Qed.

(** The only whitespace of joined words is the single space between two
    of them. *)
Lemma join_whitespace ws c :
  Forall word ws -> In c (join (str " ") ws) -> isspace c = true -> c = space.
Proof.
  induction 1 as [|w r [Hne Hw] Hr IH]; [intros []|].
  destruct r as [|w' r'].
  - simpl. intros Hc Hs. rewrite (solid_not_space w c Hw Hc) in Hs. discriminate.
  - rewrite join_cons. intros Hc Hs. apply in_app_or in Hc as [Hc|[Hc|Hc]].
    + rewrite (solid_not_space w c Hw Hc) in Hs. discriminate.
    + symmetry. exact Hc.
    + apply IH; assumption.
Qed.

Lemma contains_cons sub c r :
  contains sub (c :: r) = starts_with sub (c :: r) || contains sub r.
Proof. reflexivity. Qed.

Lemma contains_spaces_solid_app w s :
  solid w -> contains [space; space] (w ++ s) = contains [space; space] s.
Proof.
  induction w as [|c w IH]; intros Hw; [reflexivity|].
  unfold solid in Hw. simpl in Hw. apply andb_true_iff in Hw as [Hc Hw].
  simpl app. rewrite contains_cons, (IH Hw). cbn [starts_with].
  destruct (N.eqb_spec space c) as [<-|Hn]; [discriminate Hc | reflexivity].
Qed.

Lemma join_single_spaces ws :
  Forall word ws -> contains [space; space] (join (str " ") ws) = false.
Proof.
  induction 1 as [|w r [Hne Hw] Hr IH].
  - reflexivity.
  - destruct r as [|w' r'].
    + simpl join. rewrite <- (app_nil_r w). rewrite contains_spaces_solid_app by exact Hw.
      reflexivity.
    + rewrite join_cons, contains_spaces_solid_app by exact Hw.
      rewrite contains_cons, IH, orb_false_r.
      destruct (join_head w' r' Hr) as [d [t [-> Hd]]].
      cbn [starts_with].
      destruct (N.eqb_spec space d) as [<-|Hn]; [discriminate Hd|].
      rewrite N.eqb_refl. reflexivity.
Qed.

(** [strip] removes whitespace, from the two ends, and nothing else. *)
Lemma lstrip_blank_prefix s : exists t, s = t ++ lstrip s /\ blank t.
Proof.
  induction s as [|c r [t [Ht Hb]]]; [exists []; split; [reflexivity | constructor]|].
  simpl. destruct (isspace c) eqn:Hc.
  - exists (c :: t). split; [simpl; f_equal; exact Ht | constructor; assumption].
  - exists []. split; [reflexivity | constructor].
Qed.

Lemma rstrip_blank_suffix s : exists t, s = rstrip s ++ t /\ blank t.
Proof.
  destruct (lstrip_blank_prefix (rev s)) as [t [Ht Hb]]. exists (rev t). split.
  - unfold rstrip. rewrite <- rev_app_distr, <- Ht, rev_involutive. reflexivity.
  - apply Forall_rev. exact Hb.
Qed.

Lemma strip_trimmed s : trimmed_of s (strip s).
Proof.
  destruct (lstrip_blank_prefix s) as [a [Ha Hba]].
  destruct (rstrip_blank_suffix (lstrip s)) as [b [Hb Hbb]].
  exists a, b. split; [|split; [exact Hba | split; [exact Hbb | split]]].
  - unfold strip. rewrite <- Hb. exact Ha.
  - apply strip_starts_solid.
  - apply strip_ends_solid.
Qed.

Lemma lstrip_blank_app a s : blank a -> lstrip (a ++ s) = lstrip s.
Proof. induction 1 as [|c r Hc _ IH]; [reflexivity|]. simpl. rewrite Hc. exact IH. Qed.

Lemma trimmed_strip s t : trimmed_of s t -> t = strip s.
Proof.
  intros [a [b [-> [Ha [Hb [Hs He]]]]]]. unfold strip.
  rewrite (lstrip_blank_app a _ Ha). destruct t as [|c r].
  - cbn [app]. rewrite <- (app_nil_r b), (lstrip_blank_app b [] Hb). reflexivity.
  - rewrite (lstrip_fixed ((c :: r) ++ b) Hs). unfold rstrip.
    rewrite rev_app_distr, (lstrip_blank_app (rev b) _ (Forall_rev Hb)).
    rewrite (lstrip_fixed (rev (c :: r)) He). symmetry. apply rev_involutive.
Qed.

End PyStrMore.

(** ** Parser: errors, defaults and the form of the fields *)

Module ParserMore.

Import ResultFacts SoupFacts PyStrFacts PyStrMore.

(** Takes apart a hypothesis that says a parser raised [e]. *)
Ltac raised H :=
  repeat match type of H with
         | bind _ _ = Raise _ =>
             apply bind_raise in H as [H | [? [_ H]]]; cbv beta in H
         | (if ?c then _ else _) = Raise _ => destruct c
         | (let (_, _) := ?p in _) = Raise _ => destruct p
         | getitem _ _ = Raise _ => apply getitem_raises in H; exact H
         | getlast _ = Raise _ => apply getlast_raises in H; exact H
         | Ok _ = Raise _ => discriminate H
         end.

Lemma parse_experience_raises row_content grouped_content e :
  parse_experience row_content grouped_content = Raise e -> e = IndexError.
Proof.
  unfold parse_experience, description_of, location_of, position_company,
    grouped_position_company, flat_position_company, date_range_text, tag_truth.
  intros H. destruct grouped_content; raised H.
Qed.

Lemma parse_certification_raises row_content e :
  parse_certification row_content = Raise e -> e = IndexError.
Proof.
  unfold parse_certification, span_text_beyond. intros H. raised H.
Qed.

(** X4. Whatever markup they are given, the three record parsers raise
    no exception other than [IndexError]. *)
Theorem parsers_raise_index_error row_content grouped_content e :
  (parse_experience row_content grouped_content = Raise e -> e = IndexError)
  /\ (parse_education row_content = Raise e -> e = IndexError)
  /\ (parse_certification row_content = Raise e -> e = IndexError).
Proof.
  split; [apply parse_experience_raises | split].
  - apply ParserSpec.parse_education_raises.
  - apply parse_certification_raises.
Qed.

Lemma getitem_cases {A : Type} (l : list A) (i : nat) :
  (i < List.length l /\ exists x, getitem l i = Ok x)
  \/ (List.length l <= i /\ getitem l i = Raise IndexError).
Proof.
  unfold getitem. destruct (nth_error l i) as [x|] eqn:E.
  - left. split; [|exists x; reflexivity].
    apply nth_error_Some. congruence.
  - right. split; [|reflexivity]. apply nth_error_None. exact E.
Qed.

Lemma span_text_beyond_cases current_item i :
  ((len current_item <= i \/ i < List.length (select "span" current_item))
   /\ exists t, span_text_beyond current_item i = Ok t)
  \/ (i < len current_item /\ List.length (select "span" current_item) <= i
      /\ span_text_beyond current_item i = Raise IndexError).
Proof.
  unfold span_text_beyond.
  destruct (Nat.leb_spec (len current_item) i) as [Hn|Hn].
  - left. split; [left; exact Hn | exists []; reflexivity].
  - destruct (getitem_cases (select "span" current_item) i) as [[Hl [x ->]]|[Hl ->]].
    + left. split; [right; exact Hl | eexists; reflexivity].
    + right. split; [exact Hn | split; [exact Hl | reflexivity]].
Qed.

(** The title is read without an exception, with or without an [h3]. *)
Lemma certification_title_reads current_item :
  exists title,
    (if truthy (select "h3" current_item)
     then h <- getitem (select "h3" current_item) 0 ;; Ok (get_text h)
     else Ok []) = Ok title.
Proof. destruct (select "h3" current_item); eexists; reflexivity. Qed.

(** X5. With the summary block in place, [parse_certification] returns
    a record exactly when the summary holds no [span] at all or at least
    as many spans as the reads ask for: two when it has up to three
    children, otherwise one for each child, six at most. *)
Theorem parse_certification_needs_spans row_content current_item items :
  select ".pv-certifications__summary-info" row_content = current_item :: items ->
  ((exists record, parse_certification row_content = Ok record)
   <-> (select "span" current_item = []
        \/ (if (len current_item <=? 3)%nat then 2
            else Nat.min (len current_item) 6)
           <= List.length (select "span" current_item))).
Proof.
  intros Hc. unfold parse_certification. rewrite Hc. cbn [getitem nth_error bind].
  destruct (certification_title_reads current_item) as [title ->].
  cbn [bind].
  destruct (select "span" current_item) as [|s0 spans] eqn:Hs.
  - cbn [truthy bind]. split; [intros _; left; reflexivity | intros _; eexists; reflexivity].
  - cbn [truthy]. rewrite <- Hs.
    assert (select "span" current_item <> []) as Hne by (rewrite Hs; discriminate).
    assert (0 < List.length (select "span" current_item)) as Hpos
      by (rewrite Hs; simpl; lia).
    clear Hs s0 spans.
    destruct (getitem_cases (select "span" current_item) 1) as [[H1 [c ->]]|[H1 ->]];
      cbn [bind].
    + destruct (span_text_beyond_cases current_item 3) as [[H3 [t3 ->]]|[H3 [H3' ->]]];
        cbn [bind].
      * destruct (span_text_beyond_cases current_item 4) as [[H4 [t4 ->]]|[H4 [H4' ->]]];
          cbn [bind].
        -- destruct (span_text_beyond_cases current_item 5)
             as [[H5 [t5 ->]]|[H5 [H5' ->]]]; cbn [bind].
           ++ split; [intros _; right | intros _; eexists; reflexivity].
              destruct (Nat.leb_spec (len current_item) 3); lia.
           ++ split; [intros [r Hr]; discriminate Hr | intros [Hn|Hn]; [congruence|]].
              destruct (Nat.leb_spec (len current_item) 3); lia.
        -- split; [intros [r Hr]; discriminate Hr | intros [Hn|Hn]; [congruence|]].
           destruct (Nat.leb_spec (len current_item) 3); lia.
      * split; [intros [r Hr]; discriminate Hr | intros [Hn|Hn]; [congruence|]].
        destruct (Nat.leb_spec (len current_item) 3); lia.
    + split; [intros [r Hr]; discriminate Hr | intros [Hn|Hn]; [congruence|]].
      destruct (Nat.leb_spec (len current_item) 3); lia.
Qed.

Lemma parse_certification_needs_spans_witness :
  exists record, parse_certification certification_short = Ok record.
Proof.
  apply (proj2 (parse_certification_needs_spans certification_short _ [] eq_refl)).
  right. simpl. lia.
Defined.

(** X6. The about text keeps the words of the section and nothing else
    but one space between two of them: it splits into the same words,
    is already stripped, and holds no whitespace other than single
    spaces. *)
Theorem parse_about_tidy row_content :
  split (parse_about row_content) = split (get_text row_content)
  /\ strip (parse_about row_content) = parse_about row_content
  /\ (forall c, In c (parse_about row_content) -> isspace c = true -> c = space)
  /\ contains (str "  ") (parse_about row_content) = false.
Proof.
  unfold parse_about. rewrite ParserSpec.about_text_words.
  pose proof (split_words_solid (get_text row_content)) as Hw.
  split; [apply split_join; exact Hw | split; [|split]].
  - apply strip_fixed; [apply join_starts_solid | apply join_ends_solid]; exact Hw.
  - intros c. apply join_whitespace. exact Hw.
  - apply (join_single_spaces _ Hw).
Qed.

(** A description is words joined by single spaces, or empty. *)
Lemma description_of_joined row_content description :
  description_of row_content = Ok description ->
  exists ws, Forall word ws /\ description = join (str " ") ws.
Proof.
  unfold description_of, experience_description.
  destruct (truthy (select ".pv-entity__description" row_content)).
  - intros H. apply bind_ok in H as [d [_ H]]. injection H as <-.
    eexists. split; [apply split_words_solid | reflexivity].
  - intros [= <-]. exists []. split; [constructor | reflexivity].
Qed.

Lemma position_company_stripped row_content grouped_content named :
  position_company row_content grouped_content = Ok named ->
  strip (fst named) = fst named.
Proof.
  unfold position_company, grouped_position_company, flat_position_company, tag_truth.
  intros H. destruct grouped_content as [grouped|].
  - apply bind_ok in H as [h [_ H]]. apply bind_ok in H as [s [_ H]].
    cbv zeta in H. apply bind_ok in H as [c [_ H]]. apply bind_ok in H as [n [_ H]].
    injection H as <-. apply strip_strip.
  - apply bind_ok in H as [h [_ H]]. cbv zeta in H.
    apply bind_ok in H as [t [_ H]]. injection H as <-. apply strip_strip.
Qed.

(** X7. In every record [parse_experience] returns, the position and
    the two dates carry no whitespace at either end, and the
    description is in the form the about clean-up leaves: stripped and
    unchanged by that clean-up. *)
Theorem parse_experience_fields_trimmed row_content grouped_content record :
  parse_experience row_content grouped_content = Ok record ->
  strip (Experience.position record) = Experience.position record
  /\ strip (Experience.start_date record) = Experience.start_date record
  /\ strip (Experience.end_date record) = Experience.end_date record
  /\ strip (Experience.description record) = Experience.description record
  /\ about_text (Experience.description record) = Experience.description record.
Proof.
  unfold parse_experience. intros H.
  apply bind_ok in H as [description [Hd H]].
  apply bind_ok in H as [location [_ H]].
  apply bind_ok in H as [named [Hn H]].
  apply bind_ok in H as [start_text [_ H]].
  apply bind_ok in H as [start_piece [_ H]].
  apply bind_ok in H as [end_text [_ H]].
  apply bind_ok in H as [end_piece [_ H]].
  injection H as <-. cbn [Experience.position Experience.start_date
                          Experience.end_date Experience.description].
  destruct (description_of_joined _ _ Hd) as [ws [Hws ->]].
  split; [exact (position_company_stripped _ _ _ Hn) | split; [apply strip_strip|]].
  split; [apply strip_strip | split].
  - apply strip_fixed; [apply join_starts_solid | apply join_ends_solid]; exact Hws.
  - rewrite ParserSpec.about_text_words, split_join by exact Hws. reflexivity.
Qed.

Lemma parse_experience_fields_trimmed_witness :
  strip (str "Engineer") = str "Engineer"
  /\ strip (str "Jan 2020") = str "Jan 2020"
  /\ strip (str "Mar 2021") = str "Mar 2021"
  /\ strip [] = []
  /\ about_text [] = [].
Proof.
  exact (parse_experience_fields_trimmed engineer_at_acme None _ eq_refl).
Defined.

Lemma join_nothing_solid ws : Forall word ws -> solid (join [] ws).
Proof.
  rewrite join_nothing. induction 1 as [|w r [_ Hw] _ IH]; [reflexivity|].
  simpl. apply solid_app; assumption.
Qed.

Lemma filter_words (f : pystr -> bool) ws : Forall word ws -> Forall word (filter f ws).
Proof.
  induction 1 as [|w r Hw _ IH]; simpl; [constructor|].
  destruct (f w); [constructor; assumption | assumption].
Qed.

(** X8. The company of a flat entry holds no whitespace: the words of
    the secondary title that are kept are put together without any. *)
Theorem flat_company_has_no_whitespace row_content record :
  parse_experience row_content None = Ok record ->
  forall c, In c (Experience.company record) -> isspace c = false.
Proof.
  unfold parse_experience. intros H.
  apply bind_ok in H as [description [_ H]].
  apply bind_ok in H as [location [_ H]].
  apply bind_ok in H as [named [Hn H]].
  apply bind_ok in H as [start_text [_ H]].
  apply bind_ok in H as [start_piece [_ H]].
  apply bind_ok in H as [end_text [_ H]].
  apply bind_ok in H as [end_piece [_ H]].
  injection H as <-. cbn [Experience.company].
  unfold position_company, flat_position_company in Hn.
  apply bind_ok in Hn as [h [_ Hn]]. cbv zeta in Hn.
  apply bind_ok in Hn as [t [_ Hn]]. injection Hn as <-. cbn [snd].
  intros c Hc. eapply solid_not_space; [|exact Hc].
  apply join_nothing_solid, filter_words, split_words_solid.
Qed.

Lemma flat_company_has_no_whitespace_witness : isspace middle_dot = false.
Proof.
  exact (flat_company_has_no_whitespace engineer_at_acme _ eq_refl
           middle_dot (or_introl eq_refl)).
Defined.

(** X9. With the summary and its dates block in place, an education
    record carries the texts of the first two [time] elements of the
    block as its dates, and the empty string for each of school, degree
    and field of study whose marker is missing; with fewer than two
    [time] elements the parse raises [IndexError]. *)
Theorem parse_education_reads_two_times row_content current_item items dates others :
  select ".pv-entity__summary-info" row_content = current_item :: items ->
  select ".pv-entity__dates" current_item = dates :: others ->
  (forall record,
      parse_education row_content = Ok record ->
      (exists first second rest,
          select "time" dates = first :: second :: rest
          /\ Education.start_date record = get_text first
          /\ Education.end_date record = get_text second)
      /\ (select ".pv-entity__school-name" current_item = [] ->
          Education.school record = [])
      /\ (select ".pv-entity__degree-name" current_item = [] ->
          Education.degree record = [])
      /\ (select ".pv-entity__fos" current_item = [] ->
          Education.field_of_study record = []))
  /\ (List.length (select "time" dates) < 2 ->
      parse_education row_content = Raise IndexError).
Proof.
  intros Hc Hd.
  assert (forall record,
             parse_education row_content = Ok record ->
             (exists first second rest,
                 select "time" dates = first :: second :: rest
                 /\ Education.start_date record = get_text first
                 /\ Education.end_date record = get_text second)
             /\ (select ".pv-entity__school-name" current_item = [] ->
                 Education.school record = [])
             /\ (select ".pv-entity__degree-name" current_item = [] ->
                 Education.degree record = [])
             /\ (select ".pv-entity__fos" current_item = [] ->
                 Education.field_of_study record = [])) as Hok.
  { intros record H. unfold parse_education in H. rewrite Hc in H.
    cbn [getitem nth_error bind] in H. rewrite Hd in H.
    apply bind_ok in H as [degree [Hdeg H]].
    apply bind_ok in H as [field_of_study [Hfos H]].
    apply bind_ok in H as [school [Hsch H]].
    cbn [getitem nth_error bind tag_truth] in H.
    apply bind_ok in H as [start_end [Hse H]]. injection H as <-.
    cbn [Education.start_date Education.end_date Education.school
         Education.degree Education.field_of_study].
    apply bind_ok in Hse as [first [H0 Hse]].
    apply bind_ok in Hse as [second [H1 Hse]]. injection Hse as <-.
    split; [|split; [|split]].
    - destruct (select "time" dates) as [|a [|b rest]]; try discriminate.
      injection H0 as <-. injection H1 as <-.
      exists a, b, rest. repeat split.
    - intros E. rewrite E in Hsch. injection Hsch as <-. reflexivity.
    - intros E. rewrite E in Hdeg. injection Hdeg as <-. reflexivity.
    - intros E. rewrite E in Hfos. injection Hfos as <-. reflexivity. }
  split; [exact Hok|].
  intros Hshort. destruct (parse_education row_content) as [record|e] eqn:E.
  - destruct (Hok record eq_refl) as [[first [second [rest [Ht _]]]] _].
    rewrite Ht in Hshort. simpl in Hshort. lia.
  - f_equal. apply (ParserSpec.parse_education_raises row_content). exact E.
Qed.

Lemma parse_education_reads_two_times_witness :
  exists first second rest,
    select "time"
      (Tag "p" ["pv-entity__dates"]
         [ elem "span" [] [text "Dates attended"];
           elem "span" []
             [ elem "time" [] [text "2010"]; inl [space; en_dash; space];
               elem "time" [] [text "2014"] ] ])
    = first :: second :: rest
    /\ str "2010" = get_text first
    /\ str "2014" = get_text second.
Proof.
  exact (proj1 (proj1 (parse_education_reads_two_times mit _ [] _ [] eq_refl eq_refl)
                  _ eq_refl)).
Defined.

(** The piece after the first en dash ends at the next one. *)
Lemma pieces_first_piece sep s :
  ~ In sep (fst (pieces sep s))
  /\ (s = fst (pieces sep s)
      \/ exists more, s = fst (pieces sep s) ++ sep :: more).
Proof.
  destruct (in_dec N.eq_dec sep s) as [Hin | Hout].
  - destruct (first_occurrence sep s Hin) as [middle [more [-> Hm]]].
    rewrite (pieces_at_first sep middle more Hm). cbn [fst].
    split; [exact Hm | right; exists more; reflexivity].
  - rewrite (pieces_without sep s Hout). cbn [fst].
    split; [exact Hout | left; reflexivity].
Qed.

(** C6. For an entry whose description, location, position and company
    are read and whose date-range marker holds two spans, the dates are
    cut from the text of the second span at the en dash: the start date
    is the text before the first en dash and the end date the text
    between the first en dash and the next one, which is the whole
    right side when there is no other, each without the whitespace at
    its two ends; such an entry fails, with [IndexError], exactly when
    that text holds no en dash. *)
Theorem parse_experience_date_range
    row_content grouped_content description location named marker markers
    first second spans :
  description_of row_content = Ok description ->
  location_of row_content = Ok location ->
  position_company row_content grouped_content = Ok named ->
  select ".pv-entity__date-range" row_content = marker :: markers ->
  select "span" marker = first :: second :: spans ->
  let text := get_text second in
  (~ In en_dash text ->
     parse_experience row_content grouped_content = Raise IndexError)
  /\ (forall left right,
        text = left ++ en_dash :: right -> ~ In en_dash left ->
        exists middle start_date end_date,
          parse_experience row_content grouped_content =
            Ok {| Experience.company := snd named;
                  Experience.start_date := start_date;
                  Experience.end_date := end_date;
                  Experience.position := fst named;
                  Experience.location := location;
                  Experience.description := description |}
          /\ trimmed_of left start_date
          /\ trimmed_of middle end_date
          /\ ~ In en_dash middle
          /\ (right = middle \/ exists more, right = middle ++ en_dash :: more))
  /\ ((exists e, parse_experience row_content grouped_content = Raise e)
      <-> ~ In en_dash text).
Proof.
  intros Hd Hl Hn Hm Hs text.
  assert (date_range_text row_content = Ok text) as Ht.
  { unfold date_range_text. rewrite Hm. simpl. rewrite Hs. reflexivity. }
  assert (~ In en_dash text ->
          parse_experience row_content grouped_content = Raise IndexError) as Hno.
  { intros Hw. unfold parse_experience. rewrite Hd, Hl, Hn, Ht. simpl.
    unfold split_on. rewrite (pieces_without _ _ Hw). reflexivity. }
  assert (forall left right,
            text = left ++ en_dash :: right -> ~ In en_dash left ->
            parse_experience row_content grouped_content =
              Ok {| Experience.company := snd named;
                    Experience.start_date := strip left;
                    Experience.end_date := strip (fst (pieces en_dash right));
                    Experience.position := fst named;
                    Experience.location := location;
                    Experience.description := description |}) as Hyes.
  { intros left right Hsplit Hleft. unfold parse_experience.
    rewrite Hd, Hl, Hn, Ht. simpl. unfold split_on.
    rewrite Hsplit, (pieces_at_first _ _ _ Hleft). reflexivity. }
  split; [exact Hno | split].
  - intros left right Hsplit Hleft.
    exists (fst (pieces en_dash right)), (strip left),
      (strip (fst (pieces en_dash right))).
    destruct (pieces_first_piece en_dash right) as [Hmid Hright].
    split; [apply Hyes; assumption|].
    split; [apply strip_trimmed|].
    split; [apply strip_trimmed|].
    split; assumption.
  - split.
    + intros [e He] Hin.
      destruct (first_occurrence _ _ Hin) as [left [right [Hsplit Hleft]]].
      rewrite (Hyes left right Hsplit Hleft) in He. discriminate He.
    + intros Hw. exists IndexError. apply Hno. exact Hw.
Qed.

Lemma parse_experience_date_range_witness :
  (exists e, parse_experience engineer_at_acme None = Raise e)
  <-> ~ In en_dash jan_2020_mar_2021.
Proof.
  refine (proj2 (proj2
    (parse_experience_date_range engineer_at_acme None [] []
       (str "Engineer", middle_dot :: str "Acme") _ [] _ _ []
       eq_refl eq_refl eq_refl eq_refl eq_refl))).
Defined.

(** An entry whose date range holds an en dash fails all the same when
    it has no heading, and of a date range with two en dashes the end
    date is the middle piece, not the right side. *)
Lemma en_dash_is_not_enough :
  date_range_text entry_without_heading = Ok jan_2020_mar_2021
  /\ In en_dash jan_2020_mar_2021
  /\ parse_experience entry_without_heading None = Raise IndexError
  /\ date_range_text entry_with_two_dashes =
       Ok (str "Jan 2020 " ++ en_dash :: str " Mar 2021 " ++ en_dash :: str " Present")
  /\ parse_experience entry_with_two_dashes None =
       Ok {| Experience.company := middle_dot :: str "Acme";
             Experience.start_date := str "Jan 2020";
             Experience.end_date := str "Mar 2021";
             Experience.position := str "Engineer";
             Experience.location := [];
             Experience.description := [] |}
  /\ strip (str " Mar 2021 " ++ en_dash :: str " Present") <> str "Mar 2021".
Proof.
  split; [reflexivity | split; [|split; [reflexivity | split; [reflexivity | split;
    [reflexivity | discriminate]]]]].
  unfold jan_2020_mar_2021. apply in_or_app. right. left. reflexivity.
Qed.

End ParserMore.

(** ** Crawler: what a fetch returns and raises *)

Module CrawlerMore.

Import ResultFacts SoupFacts CrawlerSpec ParserMore.

(** The company of a role comes from the group it is parsed under. *)
Lemma grouped_company row_detail row group groups first second spans record :
  select ".pv-entity__company-summary-info" row = group :: groups ->
  select "span" group = first :: second :: spans ->
  parse_experience row_detail (Some row) = Ok record ->
  Experience.company record = strip (get_text second).
Proof.
  intros Hg Hs H. unfold parse_experience in H.
  apply bind_ok in H as [description [_ H]].
  apply bind_ok in H as [location [_ H]].
  apply bind_ok in H as [named [Hn H]].
  apply bind_ok in H as [start_text [_ H]].
  apply bind_ok in H as [start_piece [_ H]].
  apply bind_ok in H as [end_text [_ H]].
  apply bind_ok in H as [end_piece [_ H]].
  injection H as <-. cbn [Experience.company].
  unfold position_company, grouped_position_company, tag_truth in Hn.
  apply bind_ok in Hn as [h [_ Hn]]. apply bind_ok in Hn as [s [_ Hn]].
  cbv zeta in Hn. rewrite Hg in Hn. cbn [getitem nth_error bind] in Hn.
  rewrite Hs in Hn. cbn [getitem nth_error bind] in Hn.
  injection Hn as <-. reflexivity.
Qed.

Lemma mapM_forall {A B : Type} (f : A -> result B) (P : B -> Prop) l r :
  (forall x y, f x = Ok y -> P y) -> mapM f l = Ok r -> Forall P r.
Proof.
  intros Hf. revert r. induction l as [|x xs IH]; simpl; intros r H.
  - injection H as <-. constructor.
  - apply bind_ok in H as [y [Hy H]]. apply bind_ok in H as [ys [Hys H]].
    injection H as <-. constructor; [apply (Hf x y Hy) | apply IH; exact Hys].
Qed.

(** X10. Every role record of a section carries the company of the
    first [.pv-entity__company-summary-info] of the section, whichever
    group the role stands under: the records of the roles, which come
    first in the list, all have the stripped text of that marker's
    second [span] as their company. *)
Theorem section_roles_share_first_company
    fragment group groups first second spans records :
  select ".pv-entity__company-summary-info" (lxml_body fragment) = group :: groups ->
  select "span" group = first :: second :: spans ->
  fetch_experience_data true (lxml_document fragment) = Ok records ->
  Forall (fun record => Experience.company record = strip (get_text second))
    (firstn (List.length (select ".pv-entity__role-details" (lxml_body fragment)))
       records)
  /\ List.length (select ".pv-entity__role-details" (lxml_body fragment))
     <= List.length records.
Proof.
  intros Hg Hs H.
  assert (fragment <> []) as Hne by (intros ->; discriminate Hg).
  rewrite (fetch_experience_data_body fragment Hne) in H.
  unfold experience_row in H. rewrite Hg in H. cbn [truthy] in H.
  rewrite role_details_loop_appends in H.
  apply bind_ok in H as [experiences [Hr H]].
  apply bind_ok in Hr as [roles [Hm Hr]]. injection Hr as <-. cbn [app] in H.
  pose proof (mapM_length _ _ _ Hm) as Hlen.
  assert (Forall (fun record => Experience.company record = strip (get_text second))
            roles) as Hall.
  { apply (mapM_forall _ _ _ _
             (fun x y => grouped_company x _ _ _ _ _ _ y Hg Hs) Hm). }
  destruct (truthy (select ".pv-entity__secondary-title" (lxml_body fragment))).
  - apply bind_ok in H as [flat [_ H]]. injection H as <-.
    rewrite <- Hlen, firstn_app, firstn_all, Nat.sub_diag, length_app.
    cbn [firstn]. rewrite app_nil_r. split; [exact Hall | lia].
  - injection H as <-. rewrite <- Hlen, firstn_all. split; [exact Hall | lia].
Qed.

Lemma section_roles_share_first_company_witness :
  Forall (fun record => Experience.company record = str "Globex")
    (firstn 2 two_employers_records)
  /\ 2 <= List.length two_employers_records.
Proof.
  exact (section_roles_share_first_company two_employers _ _ _ _ _
           two_employers_records eq_refl eq_refl eq_refl).
Defined.

(** X11. A fetch raises [Forbidden] exactly when the crawler is not
    authenticated, whatever the section holds; authenticated, the
    record fetches raise nothing but [IndexError], and
    [fetch_experience_data] also [AttributeError]. *)
Theorem fetch_raises_forbidden_unauthenticated authenticated soup e :
  (fetch_experience_data authenticated soup = Raise e ->
     (authenticated = false /\ e = Forbidden)
     \/ (authenticated = true /\ (e = IndexError \/ e = AttributeError)))
  /\ (fetch_education_data authenticated soup = Raise e ->
     (authenticated = false /\ e = Forbidden)
     \/ (authenticated = true /\ e = IndexError))
  /\ (fetch_certification_data authenticated soup = Raise e ->
     (authenticated = false /\ e = Forbidden)
     \/ (authenticated = true /\ e = IndexError))
  /\ (fetch_about_data authenticated soup = Raise e ->
     (authenticated = false /\ e = Forbidden)
     \/ (authenticated = true /\ e = IndexError))
  /\ (authenticated = false ->
      fetch_experience_data authenticated soup = Raise Forbidden
      /\ fetch_education_data authenticated soup = Raise Forbidden
      /\ fetch_certification_data authenticated soup = Raise Forbidden
      /\ fetch_about_data authenticated soup = Raise Forbidden).
Proof.
  assert (forall rows acc x,
             experience_rows rows acc = Raise x ->
             x = IndexError \/ x = AttributeError) as Hrows.
  { induction rows as [|[s|row] rest IH]; intros acc x H; simpl in H.
    - discriminate.
    - injection H as <-. right. reflexivity.
    - apply bind_raise in H as [H | [acc' [_ H]]]; [|exact (IH _ _ H)].
      left. unfold experience_row in H.
      apply bind_raise in H as [H | [acc' [_ H]]].
      + destruct (truthy _); [|discriminate].
        rewrite role_details_loop_appends in H.
        apply bind_raise in H as [H | [? [_ H]]]; [|discriminate].
        clear IH. induction (select ".pv-entity__role-details" row) as [|d ds IHd];
          simpl in H; [discriminate|].
        apply bind_raise in H as [H | [? [_ H]]];
          [exact (parse_experience_raises _ _ _ H)|].
        apply bind_raise in H as [H | [? [_ H]]]; [exact (IHd H) | discriminate].
      + destruct (truthy _); [|discriminate].
        apply bind_raise in H as [H | [? [_ H]]]; [|discriminate].
        exact (parse_experience_raises _ _ _ H). }
  assert (forall (A : Type) (parser_method : tag -> result A) selector x,
             (forall t y, parser_method t = Raise y -> y = IndexError) ->
             _fetch_arbitrary_data soup parser_method selector = Raise x ->
             x = IndexError) as Harb.
  { intros A parser_method selector x Hp H. unfold _fetch_arbitrary_data in H.
    apply bind_raise in H as [H | [first [_ H]]]; [exact (getitem_raises _ _ _ H)|].
    cbv zeta iota in H.
    apply bind_raise in H as [H | [? [_ H]]]; [exact (Hp _ _ H) | discriminate]. }
  unfold fetch_experience_data, fetch_education_data, fetch_certification_data,
    fetch_about_data, _validate_authentication.
  destruct authenticated; cbn [bind].
  - repeat split; try discriminate; intros H; right; (split; [reflexivity|]).
    + apply bind_raise in H as [H | [elements [_ H]]];
        [left; exact (getitem_raises _ _ _ H) | exact (Hrows _ _ _ H)].
    + exact (Harb _ _ _ _ ParserSpec.parse_education_raises H).
    + exact (Harb _ _ _ _ parse_certification_raises H).
    + apply (Harb _ _ _ _ (fun t y (E : Ok (parse_about t) = Raise y) =>
                             ltac:(discriminate E)) H).
  - repeat split; try reflexivity; intros [= <-]; left; split; reflexivity.
Qed.

(** X12. An authenticated [fetch_about_data] raises [IndexError] when
    the parsed markup holds no [html] element, as for empty markup, and
    otherwise raises nothing and returns one string: the cleaned-up text
    of the first [html] element, which for a section that opens with an
    element is the text of the whole section. *)
Theorem fetch_about_data_one_text :
  (forall soup,
      fetch_about_data true soup =
        match select "html" soup with
        | [] => Raise IndexError
        | html :: _ => Ok [about_text (get_text html)]
        end)
  /\ fetch_about_data true (lxml_document []) = Raise IndexError
  /\ (forall fragment,
        fragment <> [] ->
        fetch_about_data true (lxml_document fragment) =
          Ok [about_text (get_text (lxml_body fragment))]).
Proof.
  split; [|split; [reflexivity|]].
  - intros soup.
    unfold fetch_about_data, _validate_authentication, _fetch_arbitrary_data,
      _get_section_elements.
    cbn [bind]. destruct (select "html" soup) as [|html rest]; reflexivity.
  - intros fragment Hne.
    unfold fetch_about_data, _validate_authentication. cbn [bind].
    rewrite (fetch_arbitrary_data_html fragment _ _ Hne). cbn [bind].
    unfold parse_about.
    replace (get_text (lxml_html fragment)) with (get_text (lxml_body fragment) ++ [])
      by reflexivity.
    rewrite app_nil_r. reflexivity.
Qed.

Lemma fetch_about_data_one_text_witness :
  fetch_about_data true (lxml_document two_employers) =
    Ok [about_text (get_text (lxml_body two_employers))].
Proof.
  apply (proj2 (proj2 fetch_about_data_one_text) two_employers). discriminate.
Defined.

(** X13. What [fetch_experience_data] returns is decided by the first
    [html] element of the parsed markup.  Without one the fetch raises
    [IndexError]; when the first child of that element is a string it
    raises [AttributeError]; when its one child is an element, the
    [body], a fetch that succeeds returns one record for each
    [.pv-entity__role-details] below it when it holds a
    [.pv-entity__company-summary-info], and one more, never more than
    one, when it holds a [.pv-entity__secondary-title], and with
    neither marker the fetch succeeds with the empty list. *)
Theorem section_record_count soup :
  (select "html" soup = [] ->
   fetch_experience_data true soup = Raise IndexError)
  /\ (forall html rest s others,
        select "html" soup = html :: rest ->
        contents html = inl s :: others ->
        fetch_experience_data true soup = Raise AttributeError)
  /\ (forall html rest body,
        select "html" soup = html :: rest ->
        contents html = [inr body] ->
        (forall records,
            fetch_experience_data true soup = Ok records ->
            List.length records =
              (if truthy (select ".pv-entity__company-summary-info" body)
               then List.length (select ".pv-entity__role-details" body)
               else 0)
              + (if truthy (select ".pv-entity__secondary-title" body)
                 then 1 else 0))
        /\ (select ".pv-entity__company-summary-info" body = [] ->
            select ".pv-entity__secondary-title" body = [] ->
            fetch_experience_data true soup = Ok [])).
Proof.
  unfold fetch_experience_data, _validate_authentication, _get_section_elements.
  cbn [bind]. split; [|split].
  - intros ->. reflexivity.
  - intros html rest s others -> Hc. cbn [getitem nth_error bind].
    rewrite Hc. reflexivity.
  - intros html rest body -> Hc. cbn [getitem nth_error bind].
    rewrite Hc. cbn [experience_rows]. rewrite bind_Ok.
    unfold experience_row. split.
    + intros records H.
      apply bind_ok in H as [experiences [Hr H]].
      assert (List.length experiences =
                if truthy (select ".pv-entity__company-summary-info" body)
                then List.length (select ".pv-entity__role-details" body)
                else 0) as Hlen.
      { destruct (truthy (select ".pv-entity__company-summary-info" _)).
        - rewrite role_details_loop_appends in Hr.
          apply bind_ok in Hr as [roles [Hm Hr]]. injection Hr as <-.
          apply (mapM_length _ _ _ Hm).
        - injection Hr as <-. reflexivity. }
      rewrite <- Hlen.
      destruct (truthy (select ".pv-entity__secondary-title" _)).
      * apply bind_ok in H as [flat [_ H]]. injection H as <-.
        rewrite length_app. reflexivity.
      * injection H as <-. lia.
    + intros -> ->. reflexivity.
Qed.

Lemma section_record_count_witness :
  List.length two_employers_records = 2 + 0.
Proof.
  exact (proj1 (proj2 (proj2 (section_record_count (lxml_document two_employers)))
                  (lxml_html two_employers) [] (lxml_body two_employers)
                  eq_refl eq_refl)
           two_employers_records eq_refl).
Defined.

End CrawlerMore.

(** ** Expander: the exceptions that reach the caller *)

Module ExpanderMore.

Import ExpanderSpec.

Section AnyBrowser.
Variables world webelement : Type.
Variable find_elements_by_class_name :
  nat -> world -> webelement -> string -> result (list webelement).
Variable get_attribute :
  nat -> world -> webelement -> string -> result (option string).
Variable click : nat -> world -> webelement -> result world.

#[local] Abbreviation call_find :=
  (call_find world webelement find_elements_by_class_name).
#[local] Abbreviation call_get_attribute :=
  (call_get_attribute world webelement get_attribute).
#[local] Abbreviation call_click := (call_click world webelement click).
#[local] Abbreviation visit := (visit world webelement get_attribute click).
#[local] Abbreviation scan := (scan world webelement get_attribute click).
#[local] Abbreviation expand :=
  (_expand_items world webelement find_elements_by_class_name get_attribute click).

(** The exception [x] was raised by a request on an element made with
    [frames] frames left, and is not a stale reference. *)
#[local] Abbreviation element_raised frames x :=
  (x <> StaleElementReferenceException
   /\ exists w e,
        call_get_attribute frames w e "aria-expanded" = Raise x
        \/ call_click frames w e = Raise x).

Lemma visit_raised frames st e st' x :
  visit frames st e = (st', Some x) -> element_raised frames x.
Proof.
  destruct frames as [|inner].
  - intros [= _ <-]. split; [discriminate|].
    exists (page st), e. left. reflexivity.
  - unfold Expander.visit.
    destruct (call_get_attribute (S inner) (page st) e "aria-expanded")
      as [a|y] eqn:Hg.
    + destruct (negb (is_true a)); [|discriminate]. simpl.
      destruct (click inner (page st) e) as [w|y] eqn:Hc; [discriminate|].
      destruct y; intros [= _ <-]; (split; [discriminate|]);
        exists (page st), e; right; exact Hc.
    + destruct y; intros [= _ <-]; (split; [discriminate|]);
        exists (page st), e; left; exact Hg.
Qed.

Lemma scan_raised frames elements :
  forall st st' x,
    scan frames st elements = (st', Some x) -> element_raised frames x.
Proof.
  induction elements as [|e rest IH]; intros st st' x H; simpl in H; [discriminate|].
  destruct (visit frames st e) as [st1 [y|]] eqn:Hv.
  - injection H as _ <-. exact (visit_raised _ _ _ _ _ Hv).
  - exact (IH _ _ _ H).
Qed.

Lemma expand_raised frames :
  forall st section element_class st' x,
    expand (S frames) st section element_class = (st', Some x) ->
    exists left_, left_ <= frames
      /\ ((exists w, call_find left_ w section element_class = Raise x)
          \/ element_raised left_ x)
      /\ (x = RecursionError -> left_ = frames).
Proof.
  induction frames as [|deeper IH]; intros st section element_class st' x H;
    rewrite expand_unfold in H.
  - injection H as _ <-. exists 0. split; [lia | split; [|reflexivity]].
    left. exists (page st). reflexivity.
  - destruct (call_find (S deeper) (page st) section element_class)
      as [elements|y] eqn:Hf.
    + destruct (scan (S deeper) _ elements) as [st1 [y|]] eqn:Hs.
      * injection H as _ <-. exists (S deeper).
        split; [lia | split; [|reflexivity]].
        right. exact (scan_raised _ _ _ _ _ Hs).
      * destruct (expand (S deeper) st1 section element_class)
          as [st2 [y|]] eqn:He; [|discriminate H].
        destruct (IH _ _ _ _ _ He) as [k [Hk [Hr _]]].
        destruct y; try discriminate H; injection H as _ <-;
          exists k; (split; [lia | split; [exact Hr | discriminate]]).
    + injection H as _ <-. exists (S deeper).
      split; [lia | split; [|reflexivity]].
      left. exists (page st). exact Hf.
Qed.
End AnyBrowser.



End ExpanderMore.

(** ** Crawler: the fetches against the browser *)

Module SessionSpec.

Import ExpanderSpec.

Section AnyBrowser.
Variables world webelement : Type.
Variable wait_until_present : world -> string -> result unit.
Variable browser_find_elements_by_class_name :
  world -> string -> result (list webelement).
Variable find_elements_by_class_name :
  nat -> world -> webelement -> string -> result (list webelement).
Variable get_attribute :
  nat -> world -> webelement -> string -> result (option string).
Variable click : nat -> world -> webelement -> result world.
Variable inner_html : world -> webelement -> result string.

#[local] Abbreviation arbitrary_section_html :=
  (Session._fetch_arbitrary_section_html world webelement wait_until_present
     browser_find_elements_by_class_name find_elements_by_class_name
     get_attribute click inner_html).
#[local] Abbreviation experiences_section_html :=
  (Session._fetch_experiences_section_html world webelement wait_until_present
     browser_find_elements_by_class_name find_elements_by_class_name
     get_attribute click inner_html).
#[local] Abbreviation expand :=
  (_expand_items world webelement find_elements_by_class_name get_attribute click).

Lemma arbitrary_section_html_found frames class_name item_expander_class st
    section others :
  wait_until_present (page st) class_name = Ok tt ->
  browser_find_elements_by_class_name (page st) class_name = Ok (section :: others) ->
  arbitrary_section_html frames class_name item_expander_class st =
    match expand frames st section item_expander_class with
    | (st', None) => (st', inner_html (page st') section)
    | (st', Some e) => (st', Raise e)
    end.
Proof.
  intros Hw Hf.
  unfold Session._fetch_arbitrary_section_html, Session.and_then,
    Session._fetch_elements_by_class, Session._expand_items_on,
    Session.inner_html_of.
  rewrite Hw, Hf.
  destruct (expand frames st section item_expander_class) as [st' [e|]]; reflexivity.
Qed.

Lemma experiences_section_html_found frames st section others :
  wait_until_present (page st) "experience-section" = Ok tt ->
  browser_find_elements_by_class_name (page st) "experience-section"
    = Ok (section :: others) ->
  experiences_section_html frames st =
    match expand frames st section "inline-show-more-text__button" with
    | (st1, None) =>
        match expand frames st1 section "pv-profile-section__see-more-inline" with
        | (st2, None) => (st2, inner_html (page st2) section)
        | (st2, Some e) => (st2, Raise e)
        end
    | (st1, Some e) => (st1, Raise e)
    end.
Proof.
  intros Hw Hf.
  unfold Session._fetch_experiences_section_html, Session.and_then,
    Session._fetch_elements_by_class, Session._expand_items_on,
    Session.inner_html_of, Session.ret.
  rewrite Hw, Hf. cbn [getitem nth_error].
  destruct (expand frames st section "inline-show-more-text__button")
    as [st1 [e|]]; [reflexivity|].
  destruct (expand frames st1 section "pv-profile-section__see-more-inline")
    as [st2 [e|]]; reflexivity.
Qed.
End AnyBrowser.

(** X15. Each fetch is a snapshot followed by a parse: not
    authenticated, it raises [Forbidden] and asks nothing of the
    browser; authenticated, it takes the markup of its section after the
    expansion, and its result is that of the extraction from the parsed
    markup alone, the page being left as the expansion left it; an
    exception of the snapshot ends the fetch. *)
Theorem fetch_is_snapshot_then_parse
    (world webelement : Type)
    (wait_until_present : world -> string -> result unit)
    (browser_find_elements_by_class_name :
       world -> string -> result (list webelement))
    (find_elements_by_class_name :
       nat -> world -> webelement -> string -> result (list webelement))
    (get_attribute :
       nat -> world -> webelement -> string -> result (option string))
    (click : nat -> world -> webelement -> result world)
    (inner_html : world -> webelement -> result string)
    (BeautifulSoup : string -> tag)
    (authenticated : bool) (frames : nat) (st : state world webelement) :
  Session.fetch_experience_data world webelement wait_until_present
    browser_find_elements_by_class_name find_elements_by_class_name
    get_attribute click inner_html BeautifulSoup authenticated frames st =
    (if authenticated then
       match Session._fetch_experiences_section_html world webelement
               wait_until_present browser_find_elements_by_class_name
               find_elements_by_class_name get_attribute click inner_html
               frames st with
       | (st', Ok html) =>
           (st', Crawler.fetch_experience_data true (BeautifulSoup html))
       | (st', Raise e) => (st', Raise e)
       end
     else (st, Raise Forbidden))
  /\ Session.fetch_education_data world webelement wait_until_present
       browser_find_elements_by_class_name find_elements_by_class_name
       get_attribute click inner_html BeautifulSoup authenticated frames st =
       (if authenticated then
          match Session._fetch_education_section_html world webelement
                  wait_until_present browser_find_elements_by_class_name
                  find_elements_by_class_name get_attribute click inner_html
                  frames st with
          | (st', Ok html) =>
              (st', Crawler.fetch_education_data true (BeautifulSoup html))
          | (st', Raise e) => (st', Raise e)
          end
        else (st, Raise Forbidden))
  /\ Session.fetch_certification_data world webelement wait_until_present
       browser_find_elements_by_class_name find_elements_by_class_name
       get_attribute click inner_html BeautifulSoup authenticated frames st =
       (if authenticated then
          match Session._fetch_certification_section_html world webelement
                  wait_until_present browser_find_elements_by_class_name
                  find_elements_by_class_name get_attribute click inner_html
                  frames st with
          | (st', Ok html) =>
              (st', Crawler.fetch_certification_data true (BeautifulSoup html))
          | (st', Raise e) => (st', Raise e)
          end
        else (st, Raise Forbidden))
  /\ Session.fetch_about_data world webelement wait_until_present
       browser_find_elements_by_class_name find_elements_by_class_name
       get_attribute click inner_html BeautifulSoup authenticated frames st =
       (if authenticated then
          match Session._fetch_about_section_html world webelement
                  wait_until_present browser_find_elements_by_class_name
                  find_elements_by_class_name get_attribute click inner_html
                  frames st with
          | (st', Ok html) =>
              (st', Crawler.fetch_about_data true (BeautifulSoup html))
          | (st', Raise e) => (st', Raise e)
          end
        else (st, Raise Forbidden)).
Proof.
  destruct authenticated; [|repeat split].
  unfold Session.fetch_experience_data, Session.fetch_education_data,
    Session.fetch_certification_data, Session.fetch_about_data,
    Session._fetch_arbitrary_data, Session._get_section_elements,
    Session.and_then, Session.ret, _validate_authentication.
  repeat split.
  - destruct (Session._fetch_experiences_section_html _ _ _ _ _ _ _ _ frames st)
      as [st' [html|e]]; [|reflexivity].
    unfold Crawler.fetch_experience_data, Crawler._get_section_elements,
      _validate_authentication. cbn [bind].
    destruct (getitem (select "html" (BeautifulSoup html)) 0); reflexivity.
  - destruct (Session._fetch_education_section_html _ _ _ _ _ _ _ _ frames st)
      as [st' [html|e]]; [|reflexivity].
    unfold Crawler.fetch_education_data, Crawler._fetch_arbitrary_data,
      Crawler._get_section_elements, _validate_authentication. cbn [bind].
    destruct (getitem (select "html" (BeautifulSoup html)) 0); reflexivity.
  - destruct (Session._fetch_certification_section_html _ _ _ _ _ _ _ _ frames st)
      as [st' [html|e]]; [|reflexivity].
    unfold Crawler.fetch_certification_data, Crawler._fetch_arbitrary_data,
      Crawler._get_section_elements, _validate_authentication. cbn [bind].
    destruct (getitem (select "html" (BeautifulSoup html)) 0); reflexivity.
  - destruct (Session._fetch_about_section_html _ _ _ _ _ _ _ _ frames st)
      as [st' [html|e]]; [|reflexivity].
    unfold Crawler.fetch_about_data, Crawler._fetch_arbitrary_data,
      Crawler._get_section_elements, _validate_authentication. cbn [bind].
    destruct (getitem (select "html" (BeautifulSoup html)) 0); reflexivity.
Qed.

(** X16. When the browser finds no element of the section's class, the
    about, education and certification snapshots raise
    [AttributeError], the section being [None], and the experience
    snapshot raises [IndexError]; in both cases nothing is scanned or
    clicked. *)
Theorem missing_section_raises
    (world webelement : Type)
    (wait_until_present : world -> string -> result unit)
    (browser_find_elements_by_class_name :
       world -> string -> result (list webelement))
    (find_elements_by_class_name :
       nat -> world -> webelement -> string -> result (list webelement))
    (get_attribute :
       nat -> world -> webelement -> string -> result (option string))
    (click : nat -> world -> webelement -> result world)
    (inner_html : world -> webelement -> result string)
    (frames : nat) (st : state world webelement) :
  (forall class_name item_expander_class,
      wait_until_present (page st) class_name = Ok tt ->
      browser_find_elements_by_class_name (page st) class_name = Ok [] ->
      Session._fetch_arbitrary_section_html world webelement wait_until_present
        browser_find_elements_by_class_name find_elements_by_class_name
        get_attribute click inner_html (S frames) class_name item_expander_class st
      = (st, Raise AttributeError))
  /\ (wait_until_present (page st) "experience-section" = Ok tt ->
      browser_find_elements_by_class_name (page st) "experience-section" = Ok [] ->
      Session._fetch_experiences_section_html world webelement wait_until_present
        browser_find_elements_by_class_name find_elements_by_class_name
        get_attribute click inner_html frames st
      = (st, Raise IndexError)).
Proof.
  split.
  - intros class_name item_expander_class Hw Hf.
    unfold Session._fetch_arbitrary_section_html, Session.and_then,
      Session._fetch_elements_by_class, Session._expand_items_on.
    rewrite Hw, Hf. reflexivity.
  - intros Hw Hf.
    unfold Session._fetch_experiences_section_html, Session.and_then,
      Session._fetch_elements_by_class, Session.ret.
    rewrite Hw, Hf. reflexivity.
Qed.

Lemma missing_section_raises_witness :
  Session._fetch_arbitrary_section_html Page.world Page.webelement
    LivePage.wait_until_present LivePage.browser_find_elements_by_class_name
    Page.find_elements_by_class_name Page.get_attribute Page.click
    LivePage.inner_html 3 "education-section"
    "pv-profile-section__see-more-inline" (State [] [])
  = (State [] [], Raise AttributeError).
Proof.
  exact (proj1 (missing_section_raises Page.world Page.webelement
                  LivePage.wait_until_present
                  LivePage.browser_find_elements_by_class_name
                  Page.find_elements_by_class_name Page.get_attribute Page.click
                  LivePage.inner_html 2 (State [] []))
           "education-section" "pv-profile-section__see-more-inline"
           eq_refl eq_refl).
Defined.



Lemma mapM_each {A B : Type} (f : A -> result B) l r :
  mapM f l = Ok r -> Forall2 (fun x y => f x = Ok y) l r.
Proof.
  revert r. induction l as [|x xs IH]; simpl; intros r H.
  - injection H as <-. constructor.
  - apply ResultFacts.bind_ok in H as [y [Hy H]].
    apply ResultFacts.bind_ok in H as [ys [Hys H]]. injection H as <-.
    constructor; [exact Hy | apply IH; exact Hys].
Qed.

(** X18. A skills fetch that returns was made by an authenticated
    crawler, left the page and the log of requests as they were, and
    holds the text of each element the browser found for the skills
    class, one for one and in the browser's order. *)
Theorem fetch_skills_data_reads_each_element
    (world webelement : Type)
    (wait_until_present : world -> string -> result unit)
    (browser_find_elements_by_class_name :
       world -> string -> result (list webelement))
    (text_of : world -> webelement -> result pystr)
    (authenticated : bool) (st st' : state world webelement) (skills : list pystr) :
  Session.fetch_skills_data world webelement wait_until_present
    browser_find_elements_by_class_name text_of authenticated st = (st', Ok skills) ->
  authenticated = true
  /\ st' = st
  /\ exists elements,
       browser_find_elements_by_class_name (page st)
         "pv-skill-category-entity__name-text" = Ok elements
       /\ Forall2 (fun element skill => text_of (page st) element = Ok skill)
            elements skills.
Proof.
  unfold Session.fetch_skills_data, Session.and_then, Session.ret,
    Session._fetch_elements_by_class, _validate_authentication.
  destruct authenticated; [|discriminate].
  destruct (wait_until_present (page st) "pv-skill-category-entity__name-text");
    [|discriminate].
  destruct (browser_find_elements_by_class_name (page st)
              "pv-skill-category-entity__name-text") as [elements|e];
    [|discriminate].
  intros [= <- H]. split; [reflexivity | split; [reflexivity|]].
  exists elements. split; [reflexivity | apply mapM_each; exact H].
Qed.

Lemma fetch_skills_data_reads_each_element_witness :
  true = true
  /\ @State Page.world Page.webelement Page.three_controls []
     = State Page.three_controls []
  /\ exists elements,
       LivePage.browser_find_elements_by_class_name Page.three_controls
         "pv-skill-category-entity__name-text" = Ok elements
       /\ Forall2 (fun element skill =>
                     LivePage.text_of Page.three_controls element = Ok skill)
            elements [str "Rocq"].
Proof.
  exact (fetch_skills_data_reads_each_element Page.world Page.webelement
           LivePage.wait_until_present
           LivePage.browser_find_elements_by_class_name LivePage.text_of
           true (State Page.three_controls []) _ _ eq_refl).
Defined.

End SessionSpec.
